(** * mbox_to_imap: the upload pipeline of [src/mbox_to_imap.py]

    A shallow embedding of [get_message_date] and [main] and the
    properties of the migration run: counters, fault isolation, date
    fall-back, idempotent folder provisioning, exit status, payload and
    order of the appends, pacing and session release.

    Conventions of the embedding.
    - The IMAP server, the file system, the operator's answers and the
      date routines of the standard library are the environment: each
      call is an oracle whose answer is either a returned value or a raised
      [Exception].  The program is the code between those calls.
    - Python variables of [main] live in a [state] record that survives a
      raised exception, as Python locals do.
    - [sys.exit] raises [SystemExit], which is no [Exception]: no
      [except Exception] clause stops it, [finally] still runs.
    - [print] and [time.sleep] do not raise; they are recorded as events
      of the run, in the order the calls are made.  Interrupts from
      outside the process ([KeyboardInterrupt]) are not part of the model. *)

From Stdlib Require Import Strings.String Strings.Ascii Strings.Byte List Bool Arith ZArith QArith Lia.
Import ListNotations.
Local Open Scope string_scope.
Local Open Scope nat_scope.

Set Implicit Arguments.

(** ** Python values used by the script *)

Definition bytes := list byte.

(** The [Exception] classes that [main] tells apart in its [except]
    clauses.  [imaplib.IMAP4.abort] and [readonly] are subclasses of
    [imaplib.IMAP4.error] and are caught with it. *)
Inductive Exception : Type :=
| IMAP4_error (msg : string)
| gaierror (msg : string)
| FileNotFoundError (msg : string)
| OtherException (msg : string).

(** [str(e)] of an exception built from one message. *)
Definition str_exc (e : Exception) : string :=
  match e with
  | IMAP4_error m | gaierror m | FileNotFoundError m | OtherException m => m
  end.

(** What a call into a library gives back. *)
Inductive outcome (A : Type) : Type :=
| Returns (a : A)
| Raises (e : Exception).
Arguments Raises {A} e.

(** An imaplib reply: [(status, data)]. *)
Definition response : Type := string * list bytes.

(** ** Text: [repr] of bytes and lists, [lower], [in] *)

Definition dquote : ascii := ascii_of_nat 34.
Definition squote : ascii := "'"%char.
Definition backslash : ascii := "\"%char.

Definition hex_digit (n : nat) : ascii :=
  match String.get n "0123456789abcdef" with
  | Some c => c
  | None => "0"%char
  end.

Definition char1 (c : ascii) : string := String c EmptyString.

(** One byte inside a bytes literal, as CPython's [bytes.__repr__] writes it. *)
Definition repr_byte (quote : ascii) (b : byte) : string :=
  let c := ascii_of_byte b in
  let n := nat_of_ascii c in
  if Ascii.eqb c quote || Ascii.eqb c backslash then String backslash (char1 c)
  else if n =? 9 then "\t"
  else if n =? 10 then "\n"
  else if n =? 13 then "\r"
  else if (n <? 32) || (127 <=? n)
       then String backslash (String "x" (String (hex_digit (n / 16)) (char1 (hex_digit (n mod 16)))))
  else char1 c.

Definition has_byte (c : ascii) (bs : bytes) : bool :=
  existsb (fun b => Ascii.eqb (ascii_of_byte b) c) bs.

(** [repr(bs)], which is also [str(bs)] for a bytes object. *)
Definition repr_bytes (bs : bytes) : string :=
  let quote := if has_byte squote bs && negb (has_byte dquote bs) then dquote else squote in
  String "b" (String quote (String.concat "" (map (repr_byte quote) bs) ++ char1 quote)).

(** [str(data)] of a list of bytes objects. *)
Definition str_list (data : list bytes) : string :=
  "[" ++ String.concat ", " (map repr_bytes data) ++ "]".

Definition lower_char (c : ascii) : ascii :=
  let n := nat_of_ascii c in
  if (65 <=? n) && (n <=? 90) then ascii_of_nat (n + 32) else c.

(** [s.lower()].  The texts tested here are [repr]s and error
    messages in ASCII, where [lower] maps A-Z to a-z and nothing else. *)
Fixpoint lower (s : string) : string :=
  match s with
  | EmptyString => EmptyString
  | String c t => String (lower_char c) (lower t)
  end.

(** [needle in haystack]. *)
Fixpoint contains (needle haystack : string) : bool :=
  String.prefix needle haystack ||
  match haystack with
  | EmptyString => false
  | String _ t => contains needle t
  end.

(** The test both provisioning branches apply to a text. *)
Definition says_exists (text : string) : bool := contains "exists" (lower text).

(** f'"{name}"' *)
Definition quoted (name : string) : string :=
  String dquote (name ++ char1 dquote).

(** ** Module constants *)

Definition UPLOAD_DELAY_SECONDS : Q := (1 # 10)%Q.
Definition PROGRESS_INTERVAL : nat := 50.


(** ** The environment *)

(** A message object as [main] uses it: [msg.get(name)] and
    [msg.as_bytes()].  Either call may raise. *)
Record Message : Type := {
  get : string -> outcome (option string);
  as_bytes : outcome bytes
}.

(** [k.lower() == name.lower()] on header names. *)
Definition same_header (k name : string) : bool := String.eqb (lower k) (lower name).

(** [email.message.Message.get]: the first header whose name matches,
    names compared without case. *)
Fixpoint header_lookup (headers : list (string * string)) (name : string) : option string :=
  match headers with
  | [] => None
  | (k, v) :: rest => if same_header k name then Some v else header_lookup rest name
  end.

(** A message object neither of whose calls raises: its header list
    and the bytes [as_bytes()] returns for it.  These are the bytes the
    library serializes the parsed message to; they need not be the bytes
    stored for the message in the archive (see [Stored]). *)
Definition mboxMessage (headers : list (string * string)) (serialized : bytes) : Message :=
  {| get := fun name => Returns (header_lookup headers name);
     as_bytes := Returns serialized |}.

(** The date routines [get_message_date] calls:
    [email.utils.parsedate_to_datetime], [datetime.timetuple],
    [time.mktime] and [imaplib.Time2Internaldate]. *)
Class DateLib : Type := {
  datetime : Type;
  struct_time : Type;
  timestamp : Type;
  parsedate_to_datetime : string -> outcome datetime;
  timetuple : datetime -> outcome struct_time;
  mktime : struct_time -> outcome timestamp;
  Time2Internaldate : timestamp -> outcome string
}.

(** Everything outside the script that one run of [main] meets. *)
Record World : Type := {
  mbox_path : string;          (* os.path.abspath of the operator's answer *)
  isfile : bool;               (* os.path.isfile(mbox_path) *)
  imap_details : string * Z * bool * string * string * string;
                               (* what get_imap_details() returns *)
  IMAP4_SSL : string -> Z -> outcome unit;
  IMAP4 : string -> Z -> outcome unit;
  login : string -> string -> outcome response;
  create : string -> outcome response;
  mbox : string -> outcome unit;             (* mailbox.mbox(path) *)
  list_mbox : outcome (list Message);        (* list(mbox) *)
  append : nat -> string -> option string -> option string -> bytes -> outcome response;
                               (* the reply to the append issued for record i *)
  logout : outcome response
}.

(** ** What a run does, as seen from outside *)

Inductive line : Type :=
| MboxNotFound (path : string)
| MissingDetails
| StartingUpload
| SourceMbox (path : string)
| TargetServer (host : string) (port : Z) (ssl : bool)
| TargetUser (user : string)
| TargetFolder (name : string)
| Connecting
| ConnectedOk
| LoggingIn (user : string)
| LoginFailedData (data : list bytes)
| LoginFailed (e : Exception)
| LoginHint
| LoginOk
| CheckingFolder (name : string)
| FolderCreated (name : string)
| FolderExists (name : string)
| ErrorCreating (name : string) (e : Exception)
| FolderExistsIgnored (name : string)
| OpeningMbox (path : string)
| ReadingMessages
| Found (total : nat)
| Uploaded (n total : nat)
| ErrorUploading (num total : nat) (data : list bytes)
| CriticalError (num total : nat) (e : Exception)
| SummaryHeader
| SummaryTotal (n : nat)
| SummaryUploaded (n : nat)
| SummaryErrors (n : nat)
| HostUnresolved (host : string) (e : Exception)
| IMAPErrorOccurred (e : Exception)
| UnexpectedError (e : Exception)
| Traceback
| LoggingOut
| LogoutOk
| LogoutError (e : Exception)
| ScriptFinished.

Inductive event : Type :=
| Print (l : line)
| Connect (ssl : bool) (host : string) (port : Z)
| Login (user password : string)
| Create (mailbox : string)
| Append (mailbox : string) (flags date_time : option string) (message : bytes)
| Sleep (seconds : Q)
| Logout.

(** ** Control flow of [main]: state, exceptions, [SystemExit] *)

Inductive signal : Type :=
| Raise (e : Exception)
| SystemExit (code : Z).

Inductive result (A : Type) : Type :=
| Ok (a : A)
| Stop (sg : signal).
Arguments Stop {A} sg.

(** The locals of [main] that are assigned more than once, and the
    events so far. [server] is [true] once the connection object is bound. *)
Record state : Type := mkState {
  server : bool;
  total_messages : nat;
  uploaded_count : nat;
  error_count : nat;
  out : list event
}.

Definition M (A : Type) : Type := state -> result A * state.

Definition ret {A} (a : A) : M A := fun s => (Ok a, s).

Definition bind {A B} (m : M A) (k : A -> M B) : M B :=
  fun s => match m s with
           | (Ok a, s') => k a s'
           | (Stop sg, s') => (Stop sg, s')
           end.

Declare Scope py_scope.
Delimit Scope py_scope with py.
Notation "x <- m ;; k" := (bind m (fun x => k))
  (at level 61, m at next level, right associativity) : py_scope.
Notation "m ;; k" := (bind m (fun _ => k))
  (at level 61, right associativity) : py_scope.
Local Open Scope py_scope.

Definition raise {A} (e : Exception) : M A := fun s => (Stop (Raise e), s).
Definition sys_exit {A} (code : Z) : M A := fun s => (Stop (SystemExit code), s).

Definition emit (ev : event) : M unit :=
  fun s => (Ok tt, mkState (server s) (total_messages s) (uploaded_count s)
                           (error_count s) (out s ++ [ev])).
Definition print (l : line) : M unit := emit (Print l).

(** A library call: the call is recorded, then it returns or raises. *)
Definition lift {A} (o : outcome A) : M A :=
  match o with
  | Returns a => ret a
  | Raises e => raise e
  end.
Definition call {A} (ev : event) (o : outcome A) : M A := emit ev ;; lift o.

Definition bind_server : M unit :=
  fun s => (Ok tt, mkState true (total_messages s) (uploaded_count s) (error_count s) (out s)).
Definition set_total_messages (n : nat) : M unit :=
  fun s => (Ok tt, mkState (server s) n (uploaded_count s) (error_count s) (out s)).
Definition incr_uploaded_count : M unit :=
  fun s => (Ok tt, mkState (server s) (total_messages s) (uploaded_count s + 1) (error_count s) (out s)).
Definition incr_error_count : M unit :=
  fun s => (Ok tt, mkState (server s) (total_messages s) (uploaded_count s) (error_count s + 1) (out s)).
Definition read {A} (f : state -> A) : M A := fun s => (Ok (f s), s).

(** [try: body except ...: handler].  [handler e] is [None] when no
    clause matches [e]; [SystemExit] matches no clause. *)
Definition try_except {A} (body : M A) (handler : Exception -> option (M A)) : M A :=
  fun s => match body s with
           | (Stop (Raise e), s') =>
               match handler e with
               | Some h => h s'
               | None => (Stop (Raise e), s')
               end
           | r => r
           end.

(** [try: body finally: fin]: [fin] always runs; what [body] raised is
    raised again after it unless [fin] itself raises. *)
Definition try_finally {A} (body : M A) (fin : M unit) : M A :=
  fun s => match body s with
           | (r, s') =>
               match fin s' with
               | (Ok _, s'') => (r, s'')
               | (Stop sg, s'') => (Stop sg, s'')
               end
           end.

(** ** The script *)

(** Sequencing of library calls inside one [try] body. *)
Definition and_then {A B} (o : outcome A) (k : A -> outcome B) : outcome B :=
  match o with
  | Returns a => k a
  | Raises e => Raises e
  end.

Section Script.

Context {L : DateLib}.

(** [get_message_date(msg)] *)
Definition get_message_date (msg : Message) : outcome (option string) :=
  and_then (get msg "Date") (fun date_str =>
  match date_str with
  | None => Returns None
  | Some d =>
      if String.eqb d "" then Returns None
      else
        match and_then (parsedate_to_datetime d) (fun dt =>
              and_then (timetuple dt) (fun tt =>
              and_then (mktime tt) Time2Internaldate))
        with
        | Returns internal => Returns (Some internal)
        | Raises _ => Returns None
        end
  end).

Variable W : World.

(** [data[0]] *)
Definition item0 (data : list bytes) : M bytes :=
  match data with
  | d :: _ => ret d
  | [] => raise (OtherException "list index out of range")
  end.

(** Lines 117-128: login. *)
Definition do_login (imap_user imap_password : string) : M unit :=
  print (LoggingIn imap_user) ;;
  try_except
    (r <- call (Login imap_user imap_password) (login W imap_user imap_password) ;;
     let '(status, data) := r in
     (if negb (String.eqb status "OK")
      then print (LoginFailedData data) ;; sys_exit 1
      else ret tt) ;;
     print LoginOk)
    (fun e => match e with
              | IMAP4_error _ =>
                  Some (print (LoginFailed e) ;; print LoginHint ;; sys_exit 1)
              | _ => None
              end).

(** Lines 130-148: create the target folder, or accept that it exists. *)
Definition prepare_target (target_mailbox : string) : M unit :=
  print (CheckingFolder target_mailbox) ;;
  try_except
    (r <- call (Create (quoted target_mailbox)) (create W (quoted target_mailbox)) ;;
     let '(status, data) := r in
     if String.eqb status "OK" then print (FolderCreated target_mailbox)
     else
       d0 <- item0 data ;;
       if says_exists (repr_bytes d0) then print (FolderExists target_mailbox)
       else raise (IMAP4_error ("Failed to create/verify folder: " ++ str_list data)))
    (fun e => match e with
              | IMAP4_error _ =>
                  Some (if negb (says_exists (str_exc e))
                        then print (ErrorCreating target_mailbox e) ;; sys_exit 1
                        else print (FolderExistsIgnored target_mailbox))
              | _ => None
              end).

(** Lines 161-190: the body of the [for] loop for record [i]. *)
Definition process_message (target_mailbox : string) (i : nat) (msg : Message) : M unit :=
  let current_msg_num := i + 1 in
  try_except
    (message_bytes <- lift (as_bytes msg) ;;
     message_date <- lift (get_message_date msg) ;;
     let message_flags : option string := None in
     r <- call (Append (quoted target_mailbox) message_flags message_date message_bytes)
               (append W i (quoted target_mailbox) message_flags message_date message_bytes) ;;
     let '(status, data) := r in
     (if String.eqb status "OK" then
        incr_uploaded_count ;;
        n <- read uploaded_count ;;
        total <- read total_messages ;;
        if (n mod PROGRESS_INTERVAL =? 0) || (current_msg_num =? total)
        then print (Uploaded n total)
        else ret tt
      else
        incr_error_count ;;
        total <- read total_messages ;;
        print (ErrorUploading current_msg_num total data)) ;;
     emit (Sleep UPLOAD_DELAY_SECONDS))
    (fun e => Some (incr_error_count ;;
                    total <- read total_messages ;;
                    print (CriticalError current_msg_num total e))).

(** [for i, msg in enumerate(message_list)], from index [i] on. *)
Fixpoint upload_loop (target_mailbox : string) (i : nat) (message_list : list Message) : M unit :=
  match message_list with
  | [] => ret tt
  | msg :: rest =>
      process_message target_mailbox i msg ;;
      upload_loop target_mailbox (S i) rest
  end.

(** Truth value of a str and of an int. *)
Definition truthy (s : string) : bool := negb (String.eqb s "").
Definition nonzero (n : Z) : bool := negb (Z.eqb n 0).

(** Lines 109-195: the body of the outer [try]. *)
Definition transfer (imap_host : string) (imap_port : Z) (use_ssl : bool)
    (imap_user imap_password target_mailbox : string) : M unit :=
  (if use_ssl
   then call (Connect true imap_host imap_port) (IMAP4_SSL W imap_host imap_port)
   else call (Connect false imap_host imap_port) (IMAP4 W imap_host imap_port)) ;;
  bind_server ;;
  print ConnectedOk ;;
  do_login imap_user imap_password ;;
  prepare_target target_mailbox ;;
  print (OpeningMbox (mbox_path W)) ;;
  lift (mbox W (mbox_path W)) ;;
  print ReadingMessages ;;
  message_list <- lift (list_mbox W) ;;
  set_total_messages (length message_list) ;;
  print (Found (length message_list)) ;;
  upload_loop target_mailbox 0 message_list ;;
  print SummaryHeader ;;
  total <- read total_messages ;;
  print (SummaryTotal total) ;;
  uploaded <- read uploaded_count ;;
  print (SummaryUploaded uploaded) ;;
  errors <- read error_count ;;
  print (SummaryErrors errors).

(** Lines 197-206: the [except] clauses of the outer [try]. *)
Definition report_failure (imap_host : string) (e : Exception) : option (M unit) :=
  match e with
  | FileNotFoundError _ => Some (print (MboxNotFound (mbox_path W)))
  | gaierror _ => Some (print (HostUnresolved imap_host e))
  | IMAP4_error _ => Some (print (IMAPErrorOccurred e) ;; print Traceback)
  | OtherException _ => Some (print (UnexpectedError e) ;; print Traceback)
  end.

(** Lines 208-217: the [finally] block. *)
Definition cleanup : M unit :=
  srv <- read server ;;
  (if srv : bool then
     try_except
       (print LoggingOut ;;
        call Logout (logout W) ;;
        print LogoutOk)
       (fun e => Some (print (LogoutError e)))
   else ret tt) ;;
  print ScriptFinished.

(** Lines 104-107. *)
Definition assign_locals : M unit :=
  fun s => (Ok tt, mkState false 0 0 0 (out s)).

(** [main()] *)
Definition main : M unit :=
  if negb (isfile W) then print (MboxNotFound (mbox_path W)) ;; sys_exit 1
  else
    let '(imap_host, imap_port, use_ssl, imap_user, imap_password, target_mailbox) :=
      imap_details W in
    if negb (truthy imap_host && nonzero imap_port && truthy imap_user
             && truthy imap_password && truthy target_mailbox)
    then print MissingDetails ;; sys_exit 1
    else
      print StartingUpload ;;
      print (SourceMbox (mbox_path W)) ;;
      print (TargetServer imap_host imap_port use_ssl) ;;
      print (TargetUser imap_user) ;;
      print (TargetFolder target_mailbox) ;;
      print Connecting ;;
      assign_locals ;;
      try_finally
        (try_except
           (transfer imap_host imap_port use_ssl imap_user imap_password target_mailbox)
           (report_failure imap_host))
        cleanup.

(** *** Derived views of one loop iteration, used to state the properties *)

(** The library calls of one loop body in the order made, up to the
    reply of the append. *)
Definition attempt (target_mailbox : string) (i : nat) (msg : Message) : outcome response :=
  and_then (as_bytes msg) (fun message_bytes =>
  and_then (get_message_date msg) (fun message_date =>
  append W i (quoted target_mailbox) None message_date message_bytes)).

(** The record is counted as uploaded: the append replied OK. *)
Definition accepted (target_mailbox : string) (i : nat) (msg : Message) : bool :=
  match attempt target_mailbox i msg with
  | Returns (status, _) => String.eqb status "OK"
  | Raises _ => false
  end.

(** The state after the body for record [i], and after the loop. *)
Definition after_message (target_mailbox : string) (i : nat) (msg : Message) (s : state) : state :=
  snd (process_message target_mailbox i msg s).
Definition after_loop (target_mailbox : string) (i : nat) (l : list Message) (s : state) : state :=
  snd (upload_loop target_mailbox i l s).

(** A run of the script from a fresh process. *)
Definition fresh : state := mkState false 0 0 0 [].
Definition run : result unit * state := main fresh.

End Script.

(** The status the process ends with: 0 when [main] returns, the code
    of [SystemExit], 1 for an exception nobody caught. *)
Definition exit_status (r : result unit) : Z :=
  match r with
  | Ok _ => 0
  | Stop (SystemExit code) => code
  | Stop (Raise _) => 1
  end.

(** The append invocations among the events, in the order issued. *)
Fixpoint appends (evs : list event) : list (string * option string * option string * bytes) :=
  match evs with
  | [] => []
  | Append mb fl dt msg :: rest => (mb, fl, dt, msg) :: appends rest
  | _ :: rest => appends rest
  end.

(** The append a record gives rise to once its bytes and date are
    there; none when preparing the record raised. *)
Definition submission {L : DateLib} (target_mailbox : string) (msg : Message)
    : list (string * option string * option string * bytes) :=
  match as_bytes msg, get_message_date msg with
  | Returns message_bytes, Returns message_date =>
      [(quoted target_mailbox, None, message_date, message_bytes)]
  | _, _ => []
  end.

(** The pacing delays among the events. *)
Definition is_sleep (ev : event) : bool :=
  match ev with Sleep _ => true | _ => false end.
Definition is_logout (ev : event) : bool :=
  match ev with Logout => true | _ => false end.
Definition is_append (ev : event) : bool :=
  match ev with Append _ _ _ _ => true | _ => false end.

(** The same world with another answer to [logout]. *)
Definition with_logout (W : World) (o : outcome response) : World :=
  {| mbox_path := mbox_path W; isfile := isfile W; imap_details := imap_details W;
     IMAP4_SSL := IMAP4_SSL W; IMAP4 := IMAP4 W; login := login W; create := create W;
     mbox := mbox W; list_mbox := list_mbox W; append := append W; logout := o |}.

(** The folder name of the operator's answers. *)
Definition target_of (W : World) : string :=
  let '(_, _, _, _, _, target_mailbox) := imap_details W in target_mailbox.

(** How provisioning ends: [Ok tt] when the folder is ready. *)
Definition ensure (W : World) (target_mailbox : string) : result unit :=
  fst (prepare_target W target_mailbox fresh).

(** The checks of lines 86-95 pass: the archive is a file and no
    connection detail is missing. *)
Definition configured (W : World) : bool :=
  let '(imap_host, imap_port, use_ssl, imap_user, imap_password, target_mailbox) :=
    imap_details W in
  isfile W
  && (truthy imap_host && nonzero imap_port && truthy imap_user
      && truthy imap_password && truthy target_mailbox).

(** What the constructor of the connection object does in [W]. *)
Definition connection (W : World) : outcome unit :=
  let '(imap_host, imap_port, use_ssl, _, _, _) := imap_details W in
  if use_ssl then IMAP4_SSL W imap_host imap_port else IMAP4 W imap_host imap_port.

(** The run gets as far as binding [server]. *)
Definition connected (W : World) : bool :=
  configured W && match connection W with Returns _ => true | Raises _ => false end.

(** The state in which [main] enters its [try]. *)
Definition greeted (W : World) : state :=
  let '(imap_host, imap_port, use_ssl, imap_user, _, target_mailbox) := imap_details W in
  mkState false 0 0 0
    [Print StartingUpload; Print (SourceMbox (mbox_path W));
     Print (TargetServer imap_host imap_port use_ssl); Print (TargetUser imap_user);
     Print (TargetFolder target_mailbox); Print Connecting].

(** The outer [try] with its [except] clauses, without the [finally]. *)
Definition guarded_transfer {L : DateLib} (W : World) : M unit :=
  let '(imap_host, imap_port, use_ssl, imap_user, imap_password, target_mailbox) :=
    imap_details W in
  try_except
    (transfer W imap_host imap_port use_ssl imap_user imap_password target_mailbox)
    (report_failure W imap_host).

(** Every append of the state comes from a record of the archive, in
    the order of the archive. *)
Definition appends_from_archive {L : DateLib} (W : World) (s : state) : Prop :=
  appends (out s) = [] \/
  exists msgs, list_mbox W = Returns msgs /\
               appends (out s) = flat_map (submission (target_of W)) msgs.

(** What the [finally] block adds to the events of a connected run. *)
Definition logout_events (o : outcome response) : list event :=
  [Print LoggingOut; Logout;
   Print (match o with Returns _ => LogoutOk | Raises e => LogoutError e end);
   Print ScriptFinished].

(** *** Vocabulary of the properties *)

(** A per-item failure of the append itself: it raised, or the reply
    is not OK. *)
Definition failed_reply (o : outcome response) : bool :=
  match o with
  | Returns (status, _) => negb (String.eqb status "OK")
  | Raises _ => true
  end.

(** The record has no usable date: no [Date] header, an empty one, or
    one the parser rejects. *)
Definition date_unusable {L : DateLib} (msg : Message) : bool :=
  match get msg "Date" with
  | Returns None => true
  | Returns (Some d) =>
      String.eqb d "" ||
      match parsedate_to_datetime d with Raises _ => true | Returns _ => false end
  | Raises _ => false
  end.

(** Serialization and date derivation both return. *)
Definition prepared {L : DateLib} (msg : Message) : bool :=
  match as_bytes msg, get_message_date msg with
  | Returns _, Returns _ => true
  | _, _ => false
  end.

(** The append invocations [aps] are the records [msgs], one for one
    and in order. *)
Definition one_append_per_record {L : DateLib} (target_mailbox : string)
    (aps : list (string * option string * option string * bytes)) (msgs : list Message) : Prop :=
  Forall2 (fun ap msg => submission target_mailbox msg = [ap]) aps msgs.

(** The payload of an append invocation. *)
Definition payload (ap : string * option string * option string * bytes) : bytes := snd ap.

(** ** Sample environments *)

Module Sample.

Definition b (s : string) : bytes := map byte_of_ascii (list_ascii_of_string s).

(** A toy date library: only texts that start with a week day parse. *)
#[export] Instance dates : DateLib := {|
  datetime := string;
  struct_time := string;
  timestamp := string;
  parsedate_to_datetime := fun d =>
    if String.prefix "Mon, " d then Returns d else Raises (OtherException "ValueError");
  timetuple := fun dt => Returns dt;
  mktime := fun tt => Returns tt;
  Time2Internaldate := fun t => Returns (quoted t)
|}.

Definition ok : outcome response := Returns ("OK", [b "done"]).
Definition no (text : string) : outcome response := Returns ("NO", [b text]).

Definition dated : Message :=
  mboxMessage [("From", "a@example.org"); ("Date", "Mon, 01 Jan 2024 10:00:00 +0000")] (b "one").
Definition undated : Message :=
  mboxMessage [("From", "b@example.org")] (b "two").
Definition misdated : Message :=
  mboxMessage [("date", "yesterday-ish"); ("From", "c@example.org")] (b "three").
Definition unserializable : Message :=
  {| get := fun _ => Returns None; as_bytes := Raises (OtherException "UnicodeEncodeError") |}.

Definition unreadable : Message :=
  {| get := fun _ => Raises (OtherException "KeyError"); as_bytes := Returns (b "four") |}.

(** A server that accepts everything, and an archive of [msgs]. *)
Definition world (msgs : list Message) : World := {|
  mbox_path := "/home/op/mail.mbox";
  isfile := true;
  imap_details := ("imap.example.org", 993%Z, true, "op@example.org", "secret", "Imported_Mbox");
  IMAP4_SSL := fun _ _ => Returns tt;
  IMAP4 := fun _ _ => Returns tt;
  login := fun _ _ => ok;
  create := fun _ => ok;
  mbox := fun _ => Returns tt;
  list_mbox := Returns msgs;
  append := fun _ _ _ _ _ => ok;
  logout := Returns ("BYE", [b "bye"])
|}.

(** Variations of [world]. *)
Definition with_append (W : World)
    (f : nat -> string -> option string -> option string -> bytes -> outcome response) : World :=
  {| mbox_path := mbox_path W; isfile := isfile W; imap_details := imap_details W;
     IMAP4_SSL := IMAP4_SSL W; IMAP4 := IMAP4 W; login := login W; create := create W;
     mbox := mbox W; list_mbox := list_mbox W; append := f; logout := logout W |}.
Definition with_create (W : World) (f : string -> outcome response) : World :=
  {| mbox_path := mbox_path W; isfile := isfile W; imap_details := imap_details W;
     IMAP4_SSL := IMAP4_SSL W; IMAP4 := IMAP4 W; login := login W; create := f;
     mbox := mbox W; list_mbox := list_mbox W; append := append W; logout := logout W |}.
Definition with_connect (W : World) (f : string -> Z -> outcome unit) : World :=
  {| mbox_path := mbox_path W; isfile := isfile W; imap_details := imap_details W;
     IMAP4_SSL := f; IMAP4 := f; login := login W; create := create W;
     mbox := mbox W; list_mbox := list_mbox W; append := append W; logout := logout W |}.

(** The append for record [k] fails as [o] says, the others succeed. *)
Definition failing_at (k : nat) (o : outcome response)
    : nat -> string -> option string -> option string -> bytes -> outcome response :=
  fun i _ _ _ _ => if i =? k then o else ok.

(** Worlds and states the examples run in. *)
Definition target : string := "Imported_Mbox".
Definition mixed : World := world [dated; unserializable; undated].
Definition rejecting : World :=
  with_append (world [dated; undated; misdated]) (failing_at 1 (no "quota exceeded")).
Definition timing_out : World :=
  with_append (world [dated; undated])
              (failing_at 0 (Raises (OtherException "timed out"))).
Definition existing : World :=
  with_create (world [dated]) (fun _ => no "[ALREADYEXISTS] Mailbox exists").
Definition refusing : World :=
  with_create (world [dated]) (fun _ => no "permission denied").
Definition unresolvable : World :=
  with_connect (world [dated]) (fun _ _ => Raises (gaierror "Name or service not known")).
Definition bad_logout : World :=
  with_logout (world [dated]) (Raises (OtherException "socket closed")).

(** The state at loop entry for an archive of three records. *)
Definition entered : state := mkState true 3 0 0 [].

End Sample.

(** ** A small program logic for [M]

    [hoare P m Qn Qx]: from a state in [P], [m] either returns [a] in a
    state of [Qn a], or stops (exception or [SystemExit]) in a state of
    [Qx]. *)

Definition hoare {A} (P : state -> Prop) (m : M A)
    (Qn : A -> state -> Prop) (Qx : state -> Prop) : Prop :=
  forall s, P s ->
    match m s with
    | (Ok a, s') => Qn a s'
    | (Stop _, s') => Qx s'
    end.

(** [m] keeps [I], however it ends. *)
Definition preserves {A} (I : state -> Prop) (m : M A) : Prop :=
  hoare I m (fun _ => I) I.

(** [I] still holds when [ev] is added to the events. *)
Definition ignores (I : state -> Prop) (ev : event) : Prop :=
  forall sv t u e o, I (mkState sv t u e o) -> I (mkState sv t u e (o ++ [ev])).

(** [I] can only be broken by an append or by an assignment. *)
Definition steady (I : state -> Prop) : Prop :=
  forall ev, is_append ev = false -> ignores I ev.

(** Invariants of a run. *)
Definition nothing_counted (s : state) : Prop :=
  total_messages s = 0 /\ uploaded_count s = 0 /\ error_count s = 0.
Definition all_counted (s : state) : Prop :=
  uploaded_count s + error_count s = total_messages s.
Definition server_bound (s : state) : Prop := server s = true.
Definition no_append_yet (s : state) : Prop := appends (out s) = [].
(** ** The operator's answers: [get_imap_details] *)

From Stdlib Require Import DecimalString.

Definition DEFAULT_MBOX_PATH : string := "mail.mbox".
Definition DEFAULT_IMAP_HOST : string := "imap.yandex.com".
Definition DEFAULT_IMAP_PORT : Z := 993.
Definition DEFAULT_USE_SSL : bool := true.
Definition DEFAULT_TARGET_MAILBOX : string := "Imported_Mbox".

(** [str(n)] of an int. *)
Definition str_int (n : Z) : string := NilZero.string_of_int (Z.to_int n).

(** [a or b] on two strs. *)
Definition or_else (a b : string) : string := if truthy a then a else b.

(** What the operator types at the six prompts, in the order asked.
    The operator answers every prompt: end of input is not modelled. *)
Record Answers : Type := {
  host_answer : string;
  port_answer : string;
  ssl_answer : string;
  user_answer : string;
  password_answer : string;     (* read by getpass.getpass *)
  folder_answer : string
}.

(** What the function writes to the terminal. *)
Inductive console : Type :=
| Shown (text : string)              (* print(text) *)
| Asked (prompt : string)            (* input(prompt) *)
| AskedSecret (prompt : string).     (* getpass.getpass(prompt) *)

Definition newline : string := String (ascii_of_nat 10) EmptyString.

(** [get_imap_details()].  [int] is Python's [int] on a str: [None]
    stands for the [ValueError] it raises on a text that is no integer
    literal.  The result is the transcript and the returned tuple. *)
Definition get_imap_details (int : string -> option Z) (a : Answers)
    : list console * (string * Z * bool * string * string * string) :=
  let host := or_else (host_answer a) DEFAULT_IMAP_HOST in
  let port_str := or_else (port_answer a) (str_int DEFAULT_IMAP_PORT) in
  let ssl_choice := lower (ssl_answer a) in
  let use_ssl :=
    if String.eqb ssl_choice "no" then false
    else if String.eqb ssl_choice "yes" then true
    else DEFAULT_USE_SSL in
  let '(notice, port) :=
    match int port_str with
    | Some n => ([], n)
    | None =>
        ([Shown ("Invalid port number. Using default: " ++ str_int DEFAULT_IMAP_PORT)],
         DEFAULT_IMAP_PORT)
    end in
  let user := user_answer a in
  let password := password_answer a in
  let target_mailbox := or_else (folder_answer a) DEFAULT_TARGET_MAILBOX in
  (List.app
     [Shown "--- IMAP Server Configuration ---";
      Asked ("Enter IMAP host [" ++ DEFAULT_IMAP_HOST ++ "]: ");
      Asked ("Enter IMAP port [" ++ str_int DEFAULT_IMAP_PORT ++ "]: ");
      Asked ("Use SSL? (yes/no) [" ++ (if DEFAULT_USE_SSL then "yes" else "no") ++ "]: ")]
     (List.app notice
        [Shown (newline ++ "--- IMAP Account ---");
         Asked "Enter IMAP username (your full email address): ";
         AskedSecret "Enter IMAP password (or App Password): ";
         Asked ("Enter target IMAP folder name [" ++ DEFAULT_TARGET_MAILBOX ++ "]: ")]),
   (host, port, use_ssl, user, password, target_mailbox)).

(** The tuple [get_imap_details()] returns. *)
Definition details_of (int : string -> option Z) (a : Answers)
    : string * Z * bool * string * string * string :=
  snd (get_imap_details int a).

(** *** Vocabulary of the run as a whole *)

(** The login of the run is answered with OK. *)
Definition login_ok (W : World) : bool :=
  let '(_, _, _, imap_user, imap_password, _) := imap_details W in
  match login W imap_user imap_password with
  | Returns (status, _) => String.eqb status "OK"
  | Raises _ => false
  end.

(** Provisioning ends with the folder ready. *)
Definition ready (W : World) : bool :=
  match ensure W (target_of W) with Ok _ => true | Stop _ => false end.

(** The records of the archive, when it can be opened and read. *)
Definition archive (W : World) : option (list Message) :=
  match mbox W (mbox_path W) with
  | Returns _ => match list_mbox W with Returns l => Some l | Raises _ => None end
  | Raises _ => None
  end.

(** The run gets as far as the loop over the records. *)
Definition reaches_loop (W : World) : bool :=
  connected W && login_ok W && ready W
  && match archive W with Some _ => true | None => false end.

(** The 1-based positions the error lines of the loop report. *)
Fixpoint error_positions (evs : list event) : list nat :=
  match evs with
  | [] => []
  | Print (ErrorUploading num _ _) :: rest => num :: error_positions rest
  | Print (CriticalError num _ _) :: rest => num :: error_positions rest
  | _ :: rest => error_positions rest
  end.

(** The 1-based positions of the records, from index [i] on, that are
    not counted as uploaded. *)
Fixpoint failures {L : DateLib} (W : World) (target_mailbox : string) (i : nat)
    (msgs : list Message) : list nat :=
  match msgs with
  | [] => []
  | msg :: rest =>
      (if accepted W target_mailbox i msg then [] else [i + 1])
      ++ failures W target_mailbox (S i) rest
  end.

(** Nothing appended and nothing counted: a run before its loop. *)
Definition untouched (s : state) : Prop := no_append_yet s /\ nothing_counted s.

(** The state in which the [try] body ends after the loop over
    [msgs]: every record counted, the appends of the records issued, the
    four summary lines printed last. *)
Definition summarized {L : DateLib} (target_mailbox : string) (msgs : list Message)
    (s : state) : Prop :=
  total_messages s = length msgs /\
  uploaded_count s + error_count s = length msgs /\
  exists pre,
    out s = (pre ++ [Print SummaryHeader; Print (SummaryTotal (total_messages s));
                     Print (SummaryUploaded (uploaded_count s));
                     Print (SummaryErrors (error_count s))])%list /\
    appends pre = flat_map (submission target_mailbox) msgs.

Definition is_create (ev : event) : bool :=
  match ev with Create _ => true | _ => false end.

(** The text of [bs] taken as ASCII. *)
Definition text_of (bs : bytes) : string :=
  string_of_list_ascii (map ascii_of_byte bs).

(** ASCII letters, and texts made of letters only. *)
Definition is_letter (c : ascii) : bool :=
  let n := nat_of_ascii c in
  (65 <=? n) && (n <=? 90) || (97 <=? n) && (n <=? 122).

Fixpoint letters (s : string) : bool :=
  match s with
  | EmptyString => true
  | String c t => is_letter c && letters t
  end.

(** A plain decimal reader used in the examples: digits only. *)
Module SampleInt.

Definition digit (c : ascii) : option Z :=
  let n := nat_of_ascii c in
  if (48 <=? n) && (n <=? 57) then Some (Z.of_nat (n - 48)) else None.

Fixpoint digits (acc : Z) (s : string) : option Z :=
  match s with
  | EmptyString => Some acc
  | String c t =>
      match digit c with
      | Some d => digits (acc * 10 + d) t
      | None => None
      end
  end.

Definition int (s : string) : option Z :=
  match s with
  | EmptyString => None
  | _ => digits 0 s
  end.

Definition typed : Answers := {|
  host_answer := ""; port_answer := "14x"; ssl_answer := "No";
  user_answer := "op@example.org"; password_answer := "secret"; folder_answer := ""
|}.

End SampleInt.

(** The pacing delays among the events, in order. *)
Fixpoint delays (evs : list event) : list Q :=
  match evs with
  | [] => []
  | Sleep seconds :: rest => seconds :: delays rest
  | _ :: rest => delays rest
  end.

(** The number of records, from index [i] on, whose append was called
    and returned a reply. *)
Fixpoint answered {L : DateLib} (W : World) (target_mailbox : string) (i : nat)
    (msgs : list Message) : nat :=
  match msgs with
  | [] => 0
  | msg :: rest =>
      (match attempt W target_mailbox i msg with Returns _ => 1 | Raises _ => 0 end)
      + answered W target_mailbox (S i) rest
  end.

(** More sample environments. *)
Module Cases.

Definition with_login (W : World) (f : string -> string -> outcome response) : World :=
  {| mbox_path := mbox_path W; isfile := isfile W; imap_details := imap_details W;
     IMAP4_SSL := IMAP4_SSL W; IMAP4 := IMAP4 W; login := f; create := create W;
     mbox := mbox W; list_mbox := list_mbox W; append := append W; logout := logout W |}.

Definition with_details (W : World) (d : string * Z * bool * string * string * string)
    : World :=
  {| mbox_path := mbox_path W; isfile := isfile W; imap_details := d;
     IMAP4_SSL := IMAP4_SSL W; IMAP4 := IMAP4 W; login := login W; create := create W;
     mbox := mbox W; list_mbox := list_mbox W; append := append W; logout := logout W |}.

(** The server refuses the login. *)
Definition locked_out : World :=
  with_login (Sample.world [Sample.dated])
             (fun _ _ => Sample.no "[AUTHENTICATIONFAILED] Invalid credentials").

(** The create request raises. *)
Definition create_raises : World :=
  Sample.with_create (Sample.world [Sample.dated])
    (fun _ => Raises (IMAP4_error "CREATE command error: BAD [b'Mailbox already Exists']")).

(** The details are the ones typed in [SampleInt.typed]. *)
Definition asked : World :=
  with_details (Sample.world [Sample.dated]) (details_of SampleInt.int SampleInt.typed).

(** The state at loop entry for an archive of two records. *)
Definition entered2 : state := mkState true 2 0 0 [].

End Cases.

(** ** Stored bytes and serialized bytes *)

(** [msg.as_bytes()] and [msg.get('Date')] both return. *)
Definition readable (msg : Message) : bool :=
  match as_bytes msg, get msg "Date" with
  | Returns _, Returns _ => true
  | _, _ => false
  end.

(** A record of the archive as the reader holds it: the bytes stored
    in the file for the message, and the message object parsed from
    them, which is what [main] iterates over. *)
Record Stored : Type := {
  stored : bytes;
  message_object : Message
}.

(** The append issued for the record carries the stored bytes. *)
Definition transmitted_as_stored {L : DateLib} (target_mailbox : string) (r : Stored) : Prop :=
  forall ap, In ap (submission target_mailbox (message_object r)) -> payload ap = stored r.

Module Wire.

(** A message stored with CRLF line ends. *)
Definition stored_crlf : bytes :=
  (Sample.b "Subject: hi" ++ [x0d; x0a; x0d; x0a] ++ Sample.b "body" ++ [x0d; x0a])%list.

(** The same message as [Message.as_bytes()] returns it: the generator
    of the email package writes every line end as a single LF. *)
Definition flattened : bytes :=
  (Sample.b "Subject: hi" ++ [x0a; x0a] ++ Sample.b "body" ++ [x0a])%list.

Definition crlf : Stored := {|
  stored := stored_crlf;
  message_object := mboxMessage [("Subject", "hi")] flattened
|}.

End Wire.

(** * Properties *)

Local Open Scope list_scope.

(** ** Rules of the program logic *)

Section Logic.

Context {A B : Type}.

Lemma hoare_conseq (P P' : state -> Prop) (m : M A) (Qn Qn' : A -> state -> Prop) (Qx Qx' : state -> Prop) :
  hoare P' m Qn' Qx' ->
  (forall s, P s -> P' s) ->
  (forall a s, Qn' a s -> Qn a s) ->
  (forall s, Qx' s -> Qx s) ->
  hoare P m Qn Qx.
Proof.
  intros H HP Hn Hx s Hs. specialize (H s (HP s Hs)).
  destruct (m s) as [[a|sg] s']; auto.
Qed.

Lemma hoare_bind (P : state -> Prop) (m : M A) (k : A -> M B)
    (R : A -> state -> Prop) (Qn : B -> state -> Prop) (Qx : state -> Prop) :
  hoare P m R Qx ->
  (forall a, hoare (R a) (k a) Qn Qx) ->
  hoare P (bind m k) Qn Qx.
Proof.
  intros Hm Hk s Hs. unfold bind. specialize (Hm s Hs).
  destruct (m s) as [[a|sg] s']; [apply (Hk a s' Hm) | exact Hm].
Qed.

Lemma hoare_try_except (P : state -> Prop) (body : M A) (handler : Exception -> option (M A))
    (R : state -> Prop) (Qn : A -> state -> Prop) (Qx : state -> Prop) :
  hoare P body Qn R ->
  (forall e h, handler e = Some h -> hoare R h Qn Qx) ->
  (forall s, R s -> Qx s) ->
  hoare P (try_except body handler) Qn Qx.
Proof.
  intros Hb Hh HR s Hs. unfold try_except. specialize (Hb s Hs).
  destruct (body s) as [[a|[e|code]] s']; auto.
  destruct (handler e) as [h|] eqn:He; auto.
  apply (Hh e h He s' Hb).
Qed.

Lemma hoare_try_finally (P : state -> Prop) (body : M A) (fin : M unit)
    (R : state -> Prop) (Q : state -> Prop) :
  hoare P body (fun _ => R) R ->
  hoare R fin (fun _ => Q) Q ->
  hoare P (try_finally body fin) (fun _ => Q) Q.
Proof.
  intros Hb Hf s Hs. unfold try_finally. specialize (Hb s Hs).
  destruct (body s) as [r s'].
  assert (HR : R s') by (destruct r; exact Hb).
  specialize (Hf s' HR). destruct (fin s') as [[u|sg] s'']; [destruct r|]; exact Hf.
Qed.

End Logic.

Section Preservation.

Variable I : state -> Prop.

Lemma preserves_ret {A} (a : A) : preserves I (ret a).
Proof. intros s Hs. exact Hs. Qed.

Lemma preserves_raise {A} (e : Exception) : preserves I (@raise A e).
Proof. intros s Hs. exact Hs. Qed.

Lemma preserves_sys_exit {A} (code : Z) : preserves I (@sys_exit A code).
Proof. intros s Hs. exact Hs. Qed.

Lemma preserves_read {A} (f : state -> A) : preserves I (read f).
Proof. intros s Hs. exact Hs. Qed.

Lemma preserves_lift {A} (o : outcome A) : preserves I (lift o).
Proof. destruct o; intros s Hs; exact Hs. Qed.

Lemma preserves_bind {A B} (m : M A) (k : A -> M B) :
  preserves I m -> (forall a, preserves I (k a)) -> preserves I (bind m k).
Proof. intros Hm Hk. eapply hoare_bind; [exact Hm | exact Hk]. Qed.

Lemma preserves_try_except {A} (body : M A) (handler : Exception -> option (M A)) :
  preserves I body ->
  (forall e h, handler e = Some h -> preserves I h) ->
  preserves I (try_except body handler).
Proof. intros Hb Hh. eapply hoare_try_except; [exact Hb | exact Hh | auto]. Qed.

Lemma preserves_emit (ev : event) : ignores I ev -> preserves I (emit ev).
Proof. intros Hig [sv t u e o] Hs. simpl. apply Hig, Hs. Qed.

Lemma preserves_print (l : line) : ignores I (Print l) -> preserves I (print l).
Proof. apply preserves_emit. Qed.

Lemma preserves_call {A} (ev : event) (o : outcome A) :
  ignores I ev -> preserves I (call ev o).
Proof.
  intros Hig. apply preserves_bind; [apply preserves_emit, Hig | intros _; apply preserves_lift].
Qed.

Lemma hoare_False {A} (m : M A) (Qn : A -> state -> Prop) (Qx : state -> Prop) :
  hoare (fun _ => False) m Qn Qx.
Proof. intros s []. Qed.

End Preservation.

(** ** Text *)

Lemma lower_app (a b : string) : lower (a ++ b)%string = (lower a ++ lower b)%string.
Proof. induction a as [|c a IH]; simpl; [reflexivity | rewrite IH; reflexivity]. Qed.

Lemma prefix_app (n a b : string) :
  String.prefix n a = true -> String.prefix n (a ++ b)%string = true.
Proof.
  revert n. induction a as [|c a IH]; intros [|d n] H; simpl in *;
    try reflexivity; try discriminate.
  - destruct b; reflexivity.
  - destruct (ascii_dec d c); [apply IH, H | discriminate].
Qed.

Lemma contains_app_l (n a b : string) :
  contains n a = true -> contains n (a ++ b)%string = true.
Proof.
  induction a as [|c a IH]; simpl.
  - rewrite orb_false_r. intros H. destruct n; [|discriminate H].
    destruct b; reflexivity.
  - intros H. apply orb_true_iff in H. apply orb_true_iff.
    destruct H as [H|H]; [left; apply (prefix_app _ (String c a) b H) | right; apply IH, H].
Qed.

Lemma contains_app_r (n a b : string) :
  contains n b = true -> contains n (a ++ b)%string = true.
Proof.
  intros H. induction a as [|c a IH]; simpl; [exact H|].
  rewrite IH. apply orb_true_r.
Qed.

Lemma says_exists_app_l (a b : string) :
  says_exists a = true -> says_exists (a ++ b)%string = true.
Proof. unfold says_exists. rewrite lower_app. apply contains_app_l. Qed.

Lemma says_exists_app_r (a b : string) :
  says_exists b = true -> says_exists (a ++ b)%string = true.
Proof. unfold says_exists. rewrite lower_app. apply contains_app_r. Qed.

Lemma concat_cons (sep x : string) (xs : list string) :
  String.concat sep (x :: xs) =
  (x ++ match xs with [] => "" | _ :: _ => sep ++ String.concat sep xs end)%string.
Proof.
  destruct xs; simpl; [|reflexivity].
  induction x as [|c x IH]; simpl; [reflexivity | rewrite <- IH; reflexivity].
Qed.

(** What [str(data[0])] mentions, [str(data)] mentions. *)
Lemma says_exists_str_list (d0 : bytes) (rest : list bytes) :
  says_exists (repr_bytes d0) = true -> says_exists (str_list (d0 :: rest)) = true.
Proof.
  intros H. unfold str_list.
  apply (says_exists_app_r "["). apply says_exists_app_l.
  rewrite map_cons, concat_cons. apply says_exists_app_l, H.
Qed.

(** The fixed words of the raised error add no mention of their own. *)
Lemma says_exists_failed (text : string) :
  says_exists ("Failed to create/verify folder: " ++ text)%string = says_exists text.
Proof. reflexivity. Qed.

Lemma says_exists_empty_list : says_exists (str_list []) = false.
Proof. reflexivity. Qed.

(** ** One loop iteration *)

Section Iteration.

Context {L : DateLib}.
Variable W : World.
Variable target : string.

#[local] Arguments Nat.modulo : simpl never.
#[local] Arguments Nat.eqb : simpl never.

Ltac run_body :=
  unfold after_message, process_message, accepted, attempt, submission, try_except,
    bind, call, lift, emit, print, read, raise, ret, incr_uploaded_count,
    incr_error_count, and_then.

(** The loop body never lets anything escape: every [Exception] of the
    body is caught. *)
Lemma process_message_returns (i : nat) (msg : Message) (s : state) :
  process_message W target i msg s = (Ok tt, after_message W target i msg s).
Proof.
  run_body.
  destruct (as_bytes msg) as [mb|e]; simpl; [|reflexivity].
  destruct (get_message_date msg) as [md|e]; simpl; [|reflexivity].
  destruct (append W i (quoted target) None md mb) as [[status data]|e]; simpl; [|reflexivity].
  destruct (String.eqb status "OK"); simpl; [|reflexivity].
  destruct (_ || _); reflexivity.
Qed.

(** [server] and [total_messages] are not touched and exactly one of
    the two counters goes up by one. *)
Lemma after_message_counters (i : nat) (msg : Message) (s : state) :
  let s' := after_message W target i msg s in
  server s' = server s /\
  total_messages s' = total_messages s /\
  uploaded_count s' = uploaded_count s + (if accepted W target i msg then 1 else 0) /\
  error_count s' = error_count s + (if accepted W target i msg then 0 else 1).
Proof.
  cbv zeta. run_body.
  destruct (as_bytes msg) as [mb|e]; simpl; [|repeat split; simpl; first [reflexivity | lia]].
  destruct (get_message_date msg) as [md|e]; simpl; [|repeat split; simpl; first [reflexivity | lia]].
  destruct (append W i (quoted target) None md mb) as [[status data]|e]; simpl;
    [|repeat split; simpl; first [reflexivity | lia]].
  destruct (String.eqb status "OK"); simpl; [|repeat split; simpl; first [reflexivity | lia]].
  destruct (_ || _); simpl; repeat split; simpl; first [reflexivity | lia].
Qed.

Lemma appends_app (l1 l2 : list event) : appends (l1 ++ l2) = appends l1 ++ appends l2.
Proof.
  induction l1 as [|ev l1 IH]; simpl; [reflexivity|].
  destruct ev; simpl; rewrite ?IH; reflexivity.
Qed.

Ltac close_appends :=
  repeat rewrite appends_app; simpl; rewrite ?app_nil_r, <- ?app_assoc; reflexivity.

(** The body issues the append of [submission] and no other. *)
Lemma after_message_appends (i : nat) (msg : Message) (s : state) :
  appends (out (after_message W target i msg s)) = appends (out s) ++ submission target msg.
Proof.
  run_body.
  destruct (as_bytes msg) as [mb|e]; simpl; [|close_appends].
  destruct (get_message_date msg) as [md|e]; simpl; [|close_appends].
  destruct (append W i (quoted target) None md mb) as [[status data]|e]; simpl;
    [|close_appends].
  destruct (String.eqb status "OK"); simpl; [|close_appends].
  destruct (_ || _); simpl; close_appends.
Qed.

(** ** The loop *)

Lemma upload_loop_returns (l : list Message) (i : nat) (s : state) :
  upload_loop W target i l s = (Ok tt, after_loop W target i l s).
Proof.
  unfold after_loop. revert i s.
  induction l as [|msg rest IH]; intros i s; simpl; [reflexivity|].
  unfold bind. rewrite process_message_returns. rewrite IH. reflexivity.
Qed.

Lemma after_loop_nil (i : nat) (s : state) : after_loop W target i [] s = s.
Proof. reflexivity. Qed.

Lemma after_loop_cons (msg : Message) (rest : list Message) (i : nat) (s : state) :
  after_loop W target i (msg :: rest) s =
  after_loop W target (S i) rest (after_message W target i msg s).
Proof.
  unfold after_loop. simpl. unfold bind.
  rewrite process_message_returns. reflexivity.
Qed.

(** The loop over [l1 ++ l2] is the loop over [l1] followed by the loop
    over [l2]: nothing that happens in [l1] stops it. *)
Lemma after_loop_app (l1 l2 : list Message) (i : nat) (s : state) :
  after_loop W target i (l1 ++ l2) s =
  after_loop W target (i + length l1) l2 (after_loop W target i l1 s).
Proof.
  revert i s. induction l1 as [|msg rest IH]; intros i s.
  - simpl. rewrite after_loop_nil, Nat.add_0_r. reflexivity.
  - simpl. rewrite !after_loop_cons, IH.
    replace (S i + length rest) with (i + S (length rest)) by lia. reflexivity.
Qed.

Lemma after_loop_counters (l : list Message) (i : nat) (s : state) :
  let s' := after_loop W target i l s in
  server s' = server s /\
  total_messages s' = total_messages s /\
  uploaded_count s <= uploaded_count s' /\
  error_count s <= error_count s' /\
  uploaded_count s' + error_count s' = uploaded_count s + error_count s + length l.
Proof.
  revert i s. induction l as [|msg rest IH]; intros i s.
  - rewrite after_loop_nil. simpl. repeat split; lia.
  - rewrite after_loop_cons. cbv zeta.
    destruct (IH (S i) (after_message W target i msg s)) as (Hs & Ht & Hu & He & Hsum).
    destruct (after_message_counters i msg s) as (Hs1 & Ht1 & Hu1 & He1).
    simpl length. destruct (accepted W target i msg); repeat split; try congruence; lia.
Qed.

Lemma after_loop_appends (l : list Message) (i : nat) (s : state) :
  appends (out (after_loop W target i l s)) =
  appends (out s) ++ flat_map (submission target) l.
Proof.
  revert i s. induction l as [|msg rest IH]; intros i s.
  - rewrite after_loop_nil. simpl. rewrite app_nil_r. reflexivity.
  - rewrite after_loop_cons, IH, after_message_appends. simpl.
    rewrite app_assoc. reflexivity.
Qed.

End Iteration.

(** ** Invariants of the run *)

Lemma nothing_counted_steady : steady nothing_counted.
Proof. intros ev _ sv t u e o H. exact H. Qed.

Lemma all_counted_steady : steady all_counted.
Proof. intros ev _ sv t u e o H. exact H. Qed.

Lemma server_bound_steady : steady server_bound.
Proof. intros ev _ sv t u e o H. exact H. Qed.

Lemma no_append_yet_steady : steady no_append_yet.
Proof.
  intros ev Hev sv t u e o H. unfold no_append_yet in *. simpl in *.
  rewrite appends_app, H. destruct ev; simpl; try reflexivity; discriminate.
Qed.

Create HintDb run_inv.
#[local] Hint Resolve nothing_counted_steady all_counted_steady server_bound_steady
  no_append_yet_steady : run_inv.

Lemma steady_ignores (I : state -> Prop) (ev : event) :
  steady I -> is_append ev = false -> ignores I ev.
Proof. intros H Hev. apply H, Hev. Qed.

(** Peels a computation apart along its structure. *)
Ltac quiet_event := apply steady_ignores; [solve [auto with run_inv] | reflexivity].

Ltac preserve_step :=
  match goal with
  | |- preserves _ (ret _) => apply preserves_ret
  | |- preserves _ (raise _) => apply preserves_raise
  | |- preserves _ (sys_exit _) => apply preserves_sys_exit
  | |- preserves _ (read _) => apply preserves_read
  | |- preserves _ (lift _) => apply preserves_lift
  | |- preserves _ (print _) => apply preserves_print; quiet_event
  | |- preserves _ (call _ _) => apply preserves_call; quiet_event
  | |- preserves _ (emit _) => apply preserves_emit; quiet_event
  | |- preserves _ (bind _ _) => apply preserves_bind; [|intro]
  | |- preserves _ (try_except _ _) =>
      apply preserves_try_except;
      [|let e := fresh "e" in let h := fresh "h" in let H := fresh "H" in
        intros e h H; destruct e; inversion H; subst; clear H]
  | |- preserves _ (if ?b then _ else _) => destruct b
  | |- preserves _ (let '(_, _) := ?r in _) => destruct r
  | |- preserves _ (match ?d with [] => _ | _ :: _ => _ end) => destruct d
  end.

Ltac preserve := repeat preserve_step.

Section Components.

Context {L : DateLib}.
Variable W : World.
Variable I : state -> Prop.
Hypothesis I_steady : steady I.

Lemma do_login_keeps (user password : string) : preserves I (do_login W user password).
Proof. unfold do_login. preserve. Qed.

Lemma prepare_target_keeps (target : string) : preserves I (prepare_target W target).
Proof. unfold prepare_target, item0. preserve. Qed.

Lemma report_failure_keeps (host : string) (e : Exception) (h : M unit) :
  report_failure W host e = Some h -> preserves I h.
Proof. destruct e; intros [= <-]; preserve. Qed.

Lemma cleanup_keeps : preserves I (cleanup W).
Proof. unfold cleanup. preserve. Qed.

End Components.

(** ** The body of the outer [try] *)

Lemma hoare_seq_keep {A B} (I : state -> Prop) (m : M A) (k : A -> M B)
    (Qn : B -> state -> Prop) (Qx : state -> Prop) :
  preserves I m ->
  (forall s, I s -> Qx s) ->
  (forall a, hoare I (k a) Qn Qx) ->
  hoare I (bind m k) Qn Qx.
Proof.
  intros Hm Hx Hk. apply hoare_bind with (R := fun _ => I); [|exact Hk].
  eapply hoare_conseq; [exact Hm | | |]; auto.
Qed.

Lemma hoare_keeps {A} (I : state -> Prop) (m : M A) :
  preserves I m -> hoare I m (fun _ => I) I.
Proof. intros H. exact H. Qed.

Lemma hoare_never_returns {A} (I : state -> Prop) (m : M A) :
  preserves I m ->
  (forall s a, fst (m s) <> Ok a) ->
  hoare I m (fun _ _ => False) I.
Proof.
  intros Hm Hno s Hs. specialize (Hm s Hs). specialize (Hno s).
  destruct (m s) as [[a|sg] s']; [exact (Hno a eq_refl) | exact Hm].
Qed.

Section Run.

Context {L : DateLib}.
Variable W : World.

Ltac peel := apply hoare_seq_keep; [ | | intro].

(** From the assignments of lines 105-107 the body ends with every
    record counted once, or stops before counting anything. *)
Lemma transfer_counts (host : string) (port : Z) (ssl : bool) (user password target : string) :
  hoare nothing_counted (transfer W host port ssl user password target)
        (fun _ => all_counted) all_counted.
Proof.
  assert (Hx : forall s, nothing_counted s -> all_counted s).
  { intros s (Ht & Hu & He). unfold all_counted. lia. }
  unfold transfer.
  peel; [preserve | exact Hx |].
  peel; [intros [sv t u e o] H; exact H | exact Hx |].
  peel; [preserve | exact Hx |].
  peel; [apply do_login_keeps; auto with run_inv | exact Hx |].
  peel; [apply prepare_target_keeps; auto with run_inv | exact Hx |].
  peel; [preserve | exact Hx |].
  peel; [preserve | exact Hx |].
  peel; [preserve | exact Hx |].
  apply hoare_seq_keep; [preserve | exact Hx | intros message_list].
  intros s (Ht & Hu & He).
  unfold bind, set_total_messages, print, emit, read. simpl.
  rewrite upload_loop_returns. simpl.
  match goal with
  | |- context [after_loop W target 0 message_list ?s0] =>
      destruct (after_loop_counters W target message_list 0 s0) as (_ & Ht' & _ & _ & Hsum)
  end.
  unfold all_counted. simpl in *. lia.
Qed.

(** Once the constructor has returned, [server] stays bound. *)
Lemma transfer_binds_server (host : string) (port : Z) (ssl : bool)
    (user password target : string) :
  (if ssl then IMAP4_SSL W host port else IMAP4 W host port) = Returns tt ->
  hoare (fun _ => True) (transfer W host port ssl user password target)
        (fun _ => server_bound) server_bound.
Proof.
  intros Hconn. unfold transfer.
  apply hoare_bind with (R := fun _ _ => True).
  { intros s _. destruct ssl; rewrite Hconn; simpl; exact Logic.I. }
  intros _. apply hoare_bind with (R := fun _ => server_bound).
  { intros s _. reflexivity. }
  intros _.
  peel; [preserve | auto |].
  peel; [apply do_login_keeps; auto with run_inv | auto |].
  peel; [apply prepare_target_keeps; auto with run_inv | auto |].
  peel; [preserve | auto |].
  peel; [preserve | auto |].
  peel; [preserve | auto |].
  apply hoare_seq_keep; [preserve | auto | intros message_list].
  peel; [intros [sv t u e o] H; exact H | auto |].
  peel; [preserve | auto |].
  peel; [ | auto | apply hoare_keeps; preserve].
  intros s Hs. rewrite upload_loop_returns.
  destruct (after_loop_counters W target message_list 0 s) as (Hsv & _).
  unfold server_bound in *. simpl. congruence.
Qed.

(** Provisioning ends the same way whatever the state. *)
Lemma prepare_target_result (target : string) (s : state) :
  fst (prepare_target W target s) = ensure W target.
Proof.
  unfold ensure, prepare_target, item0, try_except, bind, call, lift, print, emit, raise, ret.
  simpl.
  destruct (create W (quoted target)) as [[status data]|e]; simpl.
  - destruct (String.eqb status "OK"); simpl; [reflexivity|].
    destruct data as [|d0 rest]; simpl; [reflexivity|].
    destruct (says_exists (repr_bytes d0)); simpl; [reflexivity|].
    destruct (negb _); reflexivity.
  - destruct e; simpl; try reflexivity.
    destruct (negb _); reflexivity.
Qed.

(** When provisioning does not end with the folder ready, the body
    stops without an append. *)
Lemma transfer_no_append (host : string) (port : Z) (ssl : bool)
    (user password target : string) :
  ensure W target <> Ok tt ->
  hoare no_append_yet (transfer W host port ssl user password target)
        (fun _ => no_append_yet) no_append_yet.
Proof.
  intros Hfatal. unfold transfer.
  peel; [destruct ssl; preserve | auto |].
  peel; [intros [sv t u e o] H; exact H | auto |].
  peel; [preserve | auto |].
  peel; [apply do_login_keeps; auto with run_inv | auto |].
  apply hoare_bind with (R := fun _ _ => False); [|intros _; apply hoare_False].
  apply hoare_never_returns; [apply prepare_target_keeps; auto with run_inv|].
  intros s [] Heq. apply Hfatal. rewrite <- (prepare_target_result target s). exact Heq.
Qed.

(** [main] as a whole: what the body establishes from the assigned
    locals, the handlers and the [finally] block keep. *)
Lemma main_hoare (P0 P I : state -> Prop) :
  steady P0 ->
  steady I ->
  (forall s, P0 s -> I s) ->
  (forall s, P0 s -> P (snd (assign_locals s))) ->
  (forall host port ssl user password target,
      imap_details W = (host, port, ssl, user, password, target) ->
      hoare P (transfer W host port ssl user password target) (fun _ => I) I) ->
  hoare P0 (main W) (fun _ => I) I.
Proof.
  intros HP0 HI Hweak Hassign Hbody. unfold main.
  assert (Hstop : forall (m : M unit), preserves P0 m -> hoare P0 m (fun _ => I) I).
  { intros m Hm. eapply hoare_conseq; [exact Hm | | |]; auto. }
  destruct (isfile W); simpl; [|apply Hstop; preserve].
  destruct (imap_details W) as [[[[[host port] ssl] user] password] target] eqn:Hd.
  destruct (negb _); [apply Hstop; preserve|].
  do 6 (peel; [preserve | auto |]).
  apply hoare_bind with (R := fun _ => P).
  { intros s Hs. apply (Hassign s Hs). }
  intros _. apply hoare_try_finally with (R := I); [|apply cleanup_keeps, HI].
  apply hoare_try_except with (R := I); [apply Hbody; reflexivity | | auto].
  intros e h He. eapply report_failure_keeps; eauto.
Qed.

End Run.

(** ** Counters (C1) *)

Section Claims.

Context {L : DateLib}.

(** C1.  Over the per-record loop [uploaded_count] and [error_count]
    never decrease; after any number of records their sum is the number
    of records processed, hence at most [total_messages], which the
    loop leaves as it was set; the loop always runs through, and then the
    sum is [total_messages].  At the end of every run of [main] the sum
    is [total_messages] as well. *)
Theorem counters_monotone_and_bounded (W : World) (target : string)
    (before during after : list Message) (s0 : state) :
  total_messages s0 = length (before ++ during ++ after) ->
  uploaded_count s0 = 0 ->
  error_count s0 = 0 ->
  let s1 := after_loop W target 0 before s0 in
  let s2 := after_loop W target 0 (before ++ during) s0 in
  let s3 := after_loop W target 0 (before ++ during ++ after) s0 in
  (total_messages s1 = total_messages s0 /\ total_messages s2 = total_messages s0
   /\ total_messages s3 = total_messages s0) /\
  (uploaded_count s1 <= uploaded_count s2 /\ error_count s1 <= error_count s2) /\
  (uploaded_count s2 <= uploaded_count s3 /\ error_count s2 <= error_count s3) /\
  uploaded_count s1 + error_count s1 = length before /\
  uploaded_count s1 + error_count s1 <= total_messages s1 /\
  uploaded_count s2 + error_count s2 <= total_messages s2 /\
  upload_loop W target 0 (before ++ during ++ after) s0 = (Ok tt, s3) /\
  uploaded_count s3 + error_count s3 = total_messages s3 /\
  all_counted (snd (run W)).
Proof.
  intros Htot Hu He s1 s2 s3.
  assert (E2 : s2 = after_loop W target (0 + length before) during s1)
    by apply after_loop_app.
  assert (E3 : s3 = after_loop W target (0 + length (before ++ during)) after s2).
  { unfold s3. rewrite app_assoc. apply after_loop_app. }
  destruct (after_loop_counters W target before 0 s0) as (_ & T1 & U1 & E1 & S1).
  destruct (after_loop_counters W target during (0 + length before) s1) as (_ & T2 & U2 & E2' & S2).
  destruct (after_loop_counters W target after (0 + length (before ++ during)) s2)
    as (_ & T3 & U3 & E3' & S3).
  rewrite <- E2 in T2, U2, E2', S2. rewrite <- E3 in T3, U3, E3', S3.
  fold s1 in T1, U1, E1, S1.
  rewrite !length_app in Htot.
  repeat split; try lia.
  - apply upload_loop_returns.
  - assert (H : hoare nothing_counted (main W) (fun _ => all_counted) all_counted).
    { apply main_hoare with (P := nothing_counted).
      - auto with run_inv.
      - auto with run_inv.
      - intros s (Ht & Hu' & He'). unfold all_counted. lia.
      - intros s _. repeat split.
      - intros. apply transfer_counts. }
    specialize (H fresh). unfold run.
    destruct (main W fresh) as [[u|sg] s]; apply H; repeat split.
Qed.

(** ** Fault isolation (C2, C10) *)

#[local] Arguments Nat.modulo : simpl never.
#[local] Arguments Nat.eqb : simpl never.

Ltac run_iteration :=
  unfold after_message, process_message, accepted, attempt, submission, prepared,
    try_except, bind, call, lift, emit, print, read, raise, ret, incr_uploaded_count,
    incr_error_count, and_then, failed_reply.

(** C2.  When the append for the record at index [length before]
    raises or is answered with a status other than OK, [error_count]
    goes up by one, [uploaded_count] stays, and the loop goes on with the
    records after it exactly as it would from that state: it runs through,
    and the appends it issues from there on are those of the later
    records, in order. *)
Theorem append_failure_is_contained (W : World) (target : string)
    (before : list Message) (msg : Message) (later : list Message) (s0 : state)
    (message_bytes : bytes) (message_date : option string) :
  as_bytes msg = Returns message_bytes ->
  get_message_date msg = Returns message_date ->
  failed_reply (append W (length before) (quoted target) None message_date message_bytes) = true ->
  let i := length before in
  let s1 := after_loop W target 0 before s0 in
  let s2 := after_message W target i msg s1 in
  let s3 := after_loop W target 0 (before ++ msg :: later) s0 in
  error_count s2 = error_count s1 + 1 /\
  uploaded_count s2 = uploaded_count s1 /\
  appends (out s2) = appends (out s1) ++ [(quoted target, None, message_date, message_bytes)] /\
  upload_loop W target 0 (before ++ msg :: later) s0 = upload_loop W target (S i) later s2 /\
  upload_loop W target 0 (before ++ msg :: later) s0 = (Ok tt, s3) /\
  appends (out s3) = appends (out s2) ++ flat_map (submission target) later /\
  uploaded_count s3 + error_count s3 = uploaded_count s2 + error_count s2 + length later.
Proof.
  intros Hb Hd Hfail i s1 s2 s3.
  assert (E3 : s3 = after_loop W target (S i) later s2).
  { unfold s3. rewrite after_loop_app, after_loop_cons.
    replace (S (0 + length before)) with (S i) by reflexivity. reflexivity. }
  assert (Hacc : accepted W target i msg = false).
  { unfold accepted, attempt, i. rewrite Hb, Hd. simpl. unfold failed_reply in Hfail.
    destruct (append W (length before) (quoted target) None message_date message_bytes)
      as [[status data]|e]; [|reflexivity].
    apply negb_true_iff, Hfail. }
  destruct (after_message_counters W target i msg s1) as (_ & _ & Hu & He).
  rewrite Hacc in Hu, He. fold s2 in Hu, He.
  repeat split.
  - exact He.
  - lia.
  - unfold s2. rewrite after_message_appends. unfold submission. rewrite Hb, Hd. reflexivity.
  - rewrite !upload_loop_returns. fold s3. rewrite E3. reflexivity.
  - apply upload_loop_returns.
  - rewrite E3. apply after_loop_appends.
  - rewrite E3. apply after_loop_counters.
Qed.

(** C10.  When [msg.as_bytes()] or [get_message_date(msg)] raises, no
    append is issued for the record, [error_count] goes up by one,
    [uploaded_count] stays, the body returns and the loop goes on with the
    next record. *)
Theorem preparation_fault_is_contained (W : World) (target : string) (i : nat)
    (msg : Message) (rest : list Message) (s : state) :
  prepared msg = false ->
  let s' := after_message W target i msg s in
  process_message W target i msg s = (Ok tt, s') /\
  error_count s' = error_count s + 1 /\
  uploaded_count s' = uploaded_count s /\
  total_messages s' = total_messages s /\
  appends (out s') = appends (out s) /\
  upload_loop W target i (msg :: rest) s = upload_loop W target (S i) rest s'.
Proof.
  intros Hprep s'.
  assert (Hacc : accepted W target i msg = false).
  { unfold accepted, attempt. unfold prepared in Hprep.
    destruct (as_bytes msg); simpl; [|reflexivity].
    destruct (get_message_date msg); simpl; [discriminate | reflexivity]. }
  assert (Hsub : submission target msg = []).
  { unfold submission. unfold prepared in Hprep.
    destruct (as_bytes msg); [|reflexivity].
    destruct (get_message_date msg); [discriminate | reflexivity]. }
  destruct (after_message_counters W target i msg s) as (_ & Ht & Hu & He).
  rewrite Hacc in Hu, He. fold s' in Ht, Hu, He.
  repeat split.
  - apply process_message_returns.
  - exact He.
  - lia.
  - exact Ht.
  - unfold s'. rewrite after_message_appends, Hsub. apply app_nil_r.
  - simpl. unfold bind. rewrite process_message_returns. reflexivity.
Qed.

(** ** Dates (C3) *)

Lemma get_message_date_unusable (msg : Message) :
  date_unusable msg = true -> get_message_date msg = Returns None.
Proof.
  unfold date_unusable, get_message_date, and_then.
  destruct (get msg "Date") as [[d|]|e]; [|reflexivity|discriminate].
  destruct (String.eqb d ""); simpl; [reflexivity|].
  destruct (parsedate_to_datetime d); [discriminate|reflexivity].
Qed.

(** [get_message_date] can only raise where [msg.get] does. *)
Lemma get_message_date_raises (msg : Message) (e : Exception) :
  get_message_date msg = Raises e -> get msg "Date" = Raises e.
Proof.
  unfold get_message_date, and_then.
  destruct (get msg "Date") as [[d|]|e']; try discriminate; [|intros H; exact H].
  destruct (String.eqb d ""); [discriminate|].
  destruct (parsedate_to_datetime d) as [dt|]; [|discriminate].
  destruct (timetuple dt) as [tt|]; [|discriminate].
  destruct (mktime tt) as [t|]; [|discriminate].
  destruct (Time2Internaldate t); discriminate.
Qed.

(** C3.  For a record whose [Date] header is missing, empty or
    rejected by the parser, [get_message_date] returns [None] and does
    not raise; once the record is serialized, the loop body issues its
    append with no date and the unchanged bytes, and how the record is
    counted follows from the reply to that append alone. *)
Theorem unusable_date_is_omitted (W : World) (target : string) (i : nat)
    (msg : Message) (s : state) :
  date_unusable msg = true ->
  get_message_date msg = Returns None /\
  forall message_bytes, as_bytes msg = Returns message_bytes ->
    let reply := append W i (quoted target) None None message_bytes in
    let s' := after_message W target i msg s in
    appends (out s') = appends (out s) ++ [(quoted target, None, None, message_bytes)] /\
    accepted W target i msg = negb (failed_reply reply) /\
    uploaded_count s' = uploaded_count s + (if failed_reply reply then 0 else 1) /\
    error_count s' = error_count s + (if failed_reply reply then 1 else 0).
Proof.
  intros Hdate. pose proof (get_message_date_unusable msg Hdate) as Hnone.
  split; [exact Hnone|].
  intros message_bytes Hb reply s'.
  assert (Hacc : accepted W target i msg = negb (failed_reply reply)).
  { unfold accepted, attempt, failed_reply, reply. rewrite Hb, Hnone. simpl.
    destruct (append W i (quoted target) None None message_bytes) as [[status data]|e];
      [rewrite negb_involutive|]; reflexivity. }
  destruct (after_message_counters W target i msg s) as (_ & _ & Hu & He).
  fold s' in Hu, He. rewrite Hacc in Hu, He.
  repeat split.
  - unfold s'. rewrite after_message_appends. unfold submission. rewrite Hb, Hnone. reflexivity.
  - exact Hacc.
  - destruct (failed_reply reply); exact Hu.
  - destruct (failed_reply reply); exact He.
Qed.

(** ** Pacing (C8) *)

(** When the append returns, with whatever status, the body ends with
    the delay. *)
Lemma returned_append_is_paced (W : World) (target : string) (i : nat) (msg : Message)
    (s : state) (message_bytes : bytes) (message_date : option string) (r : response) :
  as_bytes msg = Returns message_bytes ->
  get_message_date msg = Returns message_date ->
  append W i (quoted target) None message_date message_bytes = Returns r ->
  exists evs, out (after_message W target i msg s) =
              out s ++ Append (quoted target) None message_date message_bytes :: evs
                    ++ [Sleep UPLOAD_DELAY_SECONDS].
Proof.
  intros Hb Hd Ha. run_iteration. rewrite Hb, Hd. simpl. rewrite Ha. simpl.
  destruct r as [status data]. destruct (String.eqb status "OK"); simpl.
  - destruct (_ || _); simpl.
    + eexists [_]. rewrite <- !app_assoc. reflexivity.
    + exists []. rewrite <- !app_assoc. reflexivity.
  - eexists [_]. rewrite <- !app_assoc. reflexivity.
Qed.

(** C8, as the code has it.  When the append raises, the body goes
    from the call straight to the handler: after the append only the
    error line is written, and no delay is taken before the next
    record. *)
Theorem raised_append_skips_delay (W : World) (target : string) (i : nat) (msg : Message)
    (s : state) (message_bytes : bytes) (message_date : option string) (e : Exception) :
  as_bytes msg = Returns message_bytes ->
  get_message_date msg = Returns message_date ->
  append W i (quoted target) None message_date message_bytes = Raises e ->
  out (after_message W target i msg s) =
  out s ++ [Append (quoted target) None message_date message_bytes;
            Print (CriticalError (i + 1) (total_messages s) e)].
Proof.
  intros Hb Hd Ha. run_iteration. rewrite Hb, Hd. simpl. rewrite Ha. simpl.
  rewrite <- app_assoc. reflexivity.
Qed.

(** ** Provisioning (C4) *)

(** How provisioning ends for a reply of the server. *)
Lemma ensure_reply (W : World) (target status : string) (data : list bytes) :
  create W (quoted target) = Returns (status, data) ->
  ensure W target =
  if String.eqb status "OK" then Ok tt
  else match data with
       | [] => Stop (Raise (OtherException "list index out of range"))
       | _ :: _ => if says_exists (str_list data) then Ok tt else Stop (SystemExit 1)
       end.
Proof.
  intros Hc.
  unfold ensure, prepare_target, item0, try_except, bind, call, lift, print, emit, raise, ret.
  simpl. rewrite Hc. simpl.
  destruct (String.eqb status "OK"); simpl; [reflexivity|].
  destruct data as [|d0 rest]; simpl; [reflexivity|].
  destruct (says_exists (repr_bytes d0)) eqn:H0; simpl.
  - rewrite (says_exists_str_list d0 rest H0). reflexivity.
  - match goal with
    | |- context [says_exists ?text] =>
        change (says_exists text)
          with (says_exists ("Failed to create/verify folder: " ++ str_list (d0 :: rest))%string)
    end.
    rewrite says_exists_failed.
    destruct (says_exists (str_list (d0 :: rest))); reflexivity.
Qed.

(** How provisioning ends when the create call raises. *)
Lemma ensure_raised (W : World) (target : string) (e : Exception) :
  create W (quoted target) = Raises e ->
  ensure W target =
  match e with
  | IMAP4_error msg => if says_exists msg then Ok tt else Stop (SystemExit 1)
  | _ => Stop (Raise e)
  end.
Proof.
  intros Hc.
  unfold ensure, prepare_target, item0, try_except, bind, call, lift, print, emit, raise, ret.
  simpl. rewrite Hc. destruct e; simpl; try reflexivity.
  destruct (says_exists msg); reflexivity.
Qed.

(** A run in which provisioning does not end with the folder ready
    issues no append. *)
Lemma fatal_provisioning_no_append (W : World) :
  ensure W (target_of W) <> Ok tt -> appends (out (snd (run W))) = [].
Proof.
  intros Hfatal.
  assert (H : hoare no_append_yet (main W) (fun _ => no_append_yet) no_append_yet).
  { apply main_hoare with (P := no_append_yet); auto with run_inv.
    intros host port ssl user password target Hd. apply transfer_no_append.
    unfold target_of in Hfatal. rewrite Hd in Hfatal. exact Hfatal. }
  specialize (H fresh). unfold run.
  destruct (main W fresh) as [[u|sg] s]; apply H; reflexivity.
Qed.

(** C4.  For a reply [(status, data)] to the create request,
    provisioning ends with the folder ready exactly when the status is OK
    or the text of the reply, [str(data)], says "exists" in any case of
    letters; in every other case it stops the run, and a run of [main] so
    stopped has issued no append. *)
Theorem provisioning_ready_iff (W : World) (status : string) (data : list bytes) :
  create W (quoted (target_of W)) = Returns (status, data) ->
  (ensure W (target_of W) = Ok tt <->
   status = "OK"%string \/ says_exists (str_list data) = true) /\
  (ensure W (target_of W) <> Ok tt ->
   (exists sg, ensure W (target_of W) = Stop sg) /\ appends (out (snd (run W))) = []).
Proof.
  intros Hc. pose proof (ensure_reply W (target_of W) Hc) as He.
  split.
  - rewrite He. destruct (String.eqb_spec status "OK") as [Hs|Hs].
    + split; auto.
    + destruct data as [|d0 rest].
      * rewrite says_exists_empty_list. split; [discriminate | intros [?|?]; [contradiction | discriminate]].
      * destruct (says_exists (str_list (d0 :: rest))); split; auto;
          [discriminate | intros [?|?]; [contradiction | discriminate]].
  - intros Hfatal. split; [|apply fatal_provisioning_no_append, Hfatal].
    destruct (ensure W (target_of W)) as [[]|sg]; [contradiction | exists sg; reflexivity].
Qed.

(** ** The shape of a run *)

(** A configured run is the guarded body followed by the [finally]
    block, entered in the state [greeted]. *)
Lemma main_configured (W : World) :
  configured W = true ->
  run W = try_finally (guarded_transfer W) (cleanup W) (greeted W).
Proof.
  unfold configured, run, main, guarded_transfer, greeted.
  destruct (imap_details W) as [[[[[host port] ssl] user] password] target].
  intros H. apply andb_true_iff in H as [Hfile Hdet]. rewrite Hfile, Hdet. reflexivity.
Qed.

(** A run that is not configured ends with [sys.exit(1)] before the
    connection is tried. *)
Lemma misconfigured_exits_one (W : World) :
  configured W = false ->
  exists l, run W = (Stop (SystemExit 1), mkState false 0 0 0 [Print l]).
Proof.
  unfold configured, run, main.
  destruct (imap_details W) as [[[[[host port] ssl] user] password] target].
  destruct (isfile W); simpl.
  - intros ->. eexists. reflexivity.
  - intros _. eexists. reflexivity.
Qed.

Lemma cleanup_connected (W : World) (t u e : nat) (o : list event) :
  cleanup W (mkState true t u e o) =
  (Ok tt, mkState true t u e (o ++ logout_events (logout W))).
Proof.
  unfold cleanup, try_except, bind, call, lift, read, print, emit, ret, raise, logout_events.
  simpl. destruct (logout W); simpl; rewrite <- !app_assoc; reflexivity.
Qed.

Lemma cleanup_unconnected (W : World) (t u e : nat) (o : list event) :
  cleanup W (mkState false t u e o) =
  (Ok tt, mkState false t u e (o ++ [Print ScriptFinished])).
Proof. reflexivity. Qed.

Lemma guarded_transfer_binds_server (W : World) :
  connected W = true ->
  server (snd (guarded_transfer W (greeted W))) = true.
Proof.
  unfold connected, connection, guarded_transfer. intros H.
  apply andb_true_iff in H as [_ Hc].
  destruct (imap_details W) as [[[[[host port] ssl] user] password] target].
  assert (Hret : (if ssl then IMAP4_SSL W host port else IMAP4 W host port) = Returns tt).
  { destruct (if ssl then IMAP4_SSL W host port else IMAP4 W host port) as [[]|];
      [reflexivity | discriminate]. }
  match goal with |- server (snd (?body ?s1)) = true =>
    assert (H : hoare (fun _ => True) body (fun _ => server_bound) server_bound);
    [|specialize (H s1 Logic.I); destruct (body s1) as [[[]|sg] s2]; exact H]
  end.
  apply hoare_try_except with (R := server_bound); [|intros e h He|auto].
  - apply transfer_binds_server, Hret.
  - apply hoare_keeps. eapply report_failure_keeps; eauto with run_inv.
Qed.

(** ** Session release (C9) *)

(** C9.  In a run that gets as far as binding [server], whatever
    happens afterwards (normal end, [sys.exit], an exception caught by the
    outer clauses), the [finally] block calls [logout]; the answer of
    [logout], returned or raised, decides one printed line and nothing
    else: result of [main], counters and all earlier events are the same
    for every answer. *)
Theorem logout_attempted_and_harmless (W : World) :
  connected W = true ->
  run (with_logout W (logout W)) = run W /\
  exists r t u e pre, forall o,
    run (with_logout W o) = (r, mkState true t u e (pre ++ logout_events o)).
Proof.
  intros Hconn. split; [destruct W; reflexivity|].
  pose proof (guarded_transfer_binds_server W Hconn) as Hsrv.
  destruct (guarded_transfer W (greeted W)) as [r [sv t u e pre]] eqn:Hbody.
  simpl in Hsrv. subst sv.
  exists r, t, u, e, pre. intros o.
  assert (Hconf : configured (with_logout W o) = true).
  { apply andb_true_iff in Hconn as [Hconf _]. exact Hconf. }
  rewrite (main_configured (with_logout W o) Hconf).
  change (guarded_transfer (with_logout W o)) with (guarded_transfer W).
  change (greeted (with_logout W o)) with (greeted W).
  unfold try_finally. rewrite Hbody, cleanup_connected. reflexivity.
Qed.

(** ** Exit status (C5) *)

(** What a run is when the constructor of the connection raises. *)
Lemma failed_connection_run (W : World) (e : Exception) :
  configured W = true ->
  connection W = Raises e ->
  exists o, run W = (Ok tt, mkState false 0 0 0 o) /\ appends o = [] /\ ~ In Logout o.
Proof.
  intros Hconf Hc. rewrite (main_configured W Hconf).
  unfold connection in Hc.
  unfold try_finally, guarded_transfer, greeted, transfer, try_except.
  destruct (imap_details W) as [[[[[host port] ssl] user] password] target].
  unfold bind at 1.
  assert (Hcall : forall s,
    (if ssl then call (Connect true host port) (IMAP4_SSL W host port)
     else call (Connect false host port) (IMAP4 W host port)) s =
    (Stop (Raise e), mkState (server s) (total_messages s) (uploaded_count s)
                             (error_count s) (out s ++ [Connect ssl host port]))).
  { intros s. destruct ssl; rewrite Hc; reflexivity. }
  rewrite Hcall.
  destruct e; simpl; eexists; (split; [reflexivity|]); (split; [reflexivity|]);
    simpl; intuition discriminate.
Qed.

(** C5, as the code has it.  When the constructor of the connection
    raises (an unresolvable host raises [socket.gaierror]), the outer
    [except] clause prints the error and [main] returns: nothing was
    appended or counted, and the process ends with status 0, where the
    failed login and the failed provisioning end with [sys.exit(1)]. *)
Theorem failed_connection_exits_zero (W : World) (e : Exception) :
  configured W = true ->
  connection W = Raises e ->
  fst (run W) = Ok tt /\
  exit_status (fst (run W)) = 0%Z /\
  appends (out (snd (run W))) = [] /\
  uploaded_count (snd (run W)) = 0 /\
  error_count (snd (run W)) = 0 /\
  server (snd (run W)) = false.
Proof.
  intros Hconf Hc.
  destruct (failed_connection_run W Hconf Hc) as (o & Hrun & Happ & _).
  rewrite Hrun. simpl. repeat split. exact Happ.
Qed.

(** The sibling path: a login the server answers with another status
    than OK ends the run with [sys.exit(1)], after the logout. *)
Lemma rejected_login_exits_one (W : World) (status : string) (data : list bytes) :
  connected W = true ->
  (forall user password, login W user password = Returns (status, data)) ->
  String.eqb status "OK" = false ->
  exists s, run W = (Stop (SystemExit 1), s) /\ appends (out s) = [] /\ In Logout (out s).
Proof.
  intros Hconn Hlogin Hs.
  unfold connected in Hconn. apply andb_true_iff in Hconn as [Hconf Hc].
  rewrite (main_configured W Hconf).
  unfold connection in Hc.
  unfold try_finally, guarded_transfer, greeted, transfer, try_except, do_login.
  destruct (imap_details W) as [[[[[host port] ssl] user] password] target].
  assert (Hcall : forall s,
    (if ssl then call (Connect true host port) (IMAP4_SSL W host port)
     else call (Connect false host port) (IMAP4 W host port)) s =
    (Ok tt, mkState (server s) (total_messages s) (uploaded_count s)
                    (error_count s) (out s ++ [Connect ssl host port]))).
  { intros s. destruct ssl;
      [destruct (IMAP4_SSL W host port) as [[]|] | destruct (IMAP4 W host port) as [[]|]];
      try discriminate; reflexivity. }
  unfold bind at 1. rewrite Hcall.
  unfold bind, call, lift, print, emit, bind_server, sys_exit, ret, raise. simpl.
  rewrite Hlogin. simpl. rewrite Hs. simpl.
  unfold cleanup, try_except, bind, call, lift, read, print, emit, ret, raise. simpl.
  destruct (logout W); simpl; eexists; (split; [reflexivity|]); simpl;
    (split; [reflexivity|]); do 12 right; left; reflexivity.
Qed.

(** ** Payload and order of the appends (C6, C7) *)

Lemma appends_from_archive_steady (W : World) : steady (appends_from_archive W).
Proof.
  intros ev Hev sv t u e o H. unfold appends_from_archive in *. simpl in *.
  assert (Hsame : appends (o ++ [ev]) = appends o).
  { rewrite appends_app. destruct ev; simpl; try apply app_nil_r; discriminate. }
  rewrite Hsame. exact H.
Qed.

#[local] Hint Resolve appends_from_archive_steady : run_inv.

Lemma transfer_appends (W : World) (host : string) (port : Z) (ssl : bool)
    (user password : string) :
  hoare no_append_yet (transfer W host port ssl user password (target_of W))
        (fun _ => appends_from_archive W) (appends_from_archive W).
Proof.
  assert (Hx : forall s, no_append_yet s -> appends_from_archive W s)
    by (intros s Hs; left; exact Hs).
  unfold transfer.
  apply hoare_seq_keep; [destruct ssl; preserve | exact Hx | intros _].
  apply hoare_seq_keep; [intros [sv t u e o] H; exact H | exact Hx | intros _].
  apply hoare_seq_keep; [preserve | exact Hx | intros _].
  apply hoare_seq_keep; [apply do_login_keeps; auto with run_inv | exact Hx | intros _].
  apply hoare_seq_keep; [apply prepare_target_keeps; auto with run_inv | exact Hx | intros _].
  apply hoare_seq_keep; [preserve | exact Hx | intros _].
  apply hoare_seq_keep; [preserve | exact Hx | intros _].
  apply hoare_seq_keep; [preserve | exact Hx | intros _].
  apply hoare_bind with (R := fun ml s => no_append_yet s /\ list_mbox W = Returns ml).
  { intros s Hs. destruct (list_mbox W) as [ml|e]; simpl; [split; [exact Hs | reflexivity]|].
    left. exact Hs. }
  intros message_list s [Hs Hl].
  unfold bind, set_total_messages, print, emit, read. simpl.
  rewrite upload_loop_returns. simpl.
  right. exists message_list. split; [exact Hl|].
  simpl. repeat rewrite appends_app. simpl. rewrite !app_nil_r.
  rewrite after_loop_appends. simpl. rewrite appends_app. simpl.
  unfold no_append_yet in Hs. rewrite Hs. reflexivity.
Qed.

(** The appends of a run are those of the archive's records that
    could be prepared, in the order of the archive; there is none when the
    run stops before the loop. *)
Lemma run_appends (W : World) : appends_from_archive W (snd (run W)).
Proof.
  assert (H : hoare no_append_yet (main W) (fun _ => appends_from_archive W)
                    (appends_from_archive W)).
  { apply main_hoare with (P := no_append_yet); auto with run_inv.
    - intros s Hs. left. exact Hs.
    - intros host port ssl user password target Hd.
      replace target with (target_of W) by (unfold target_of; rewrite Hd; reflexivity).
      apply transfer_appends. }
  specialize (H fresh eq_refl). unfold run.
  destruct (main W fresh) as [[u|sg] s]; exact H.
Qed.

Lemma in_submission (target : string) (msg : Message)
    (ap : string * option string * option string * bytes) :
  In ap (submission target msg) ->
  as_bytes msg = Returns (payload ap) /\
  get_message_date msg = Returns (snd (fst ap)) /\
  fst (fst (fst ap)) = quoted target /\ snd (fst (fst ap)) = None.
Proof.
  unfold submission.
  destruct (as_bytes msg) as [mb|]; [|intros []].
  destruct (get_message_date msg) as [md|]; [|intros []].
  intros [<-|[]]. simpl. repeat split.
Qed.

(** C6, amended.  The bytes handed to the append of a record are
    the bytes [msg.as_bytes()] returned for it, as they are: the script
    changes nothing between serialization and append; and every append of
    a run carries the bytes so serialized of a record of the archive.
    They are not always the bytes stored in the archive, which
    [as_bytes()] does not reproduce in every case. *)
Theorem payload_is_unmodified (W : World) :
  (forall target i msg s message_bytes message_date,
      as_bytes msg = Returns message_bytes ->
      get_message_date msg = Returns message_date ->
      appends (out (after_message W target i msg s)) =
      appends (out s) ++ [(quoted target, None, message_date, message_bytes)]) /\
  (forall ap, In ap (appends (out (snd (run W)))) ->
      exists msgs msg, list_mbox W = Returns msgs /\ In msg msgs /\
                       as_bytes msg = Returns (payload ap)).
Proof.
  split.
  - intros target i msg s mb md Hb Hd.
    rewrite after_message_appends. unfold submission. rewrite Hb, Hd. reflexivity.
  - intros ap Hin. destruct (run_appends W) as [Hnone|(msgs & Hl & Happ)].
    + rewrite Hnone in Hin. destruct Hin.
    + rewrite Happ in Hin. apply in_flat_map in Hin as (msg & Hmsg & Hsub).
      exists msgs, msg. repeat split; auto. apply (in_submission _ _ _ Hsub).
Qed.

Lemma flat_map_submission_prepared (target : string) (msgs : list Message) :
  Forall (fun msg => prepared msg = true) msgs ->
  one_append_per_record target (flat_map (submission target) msgs) msgs.
Proof.
  unfold one_append_per_record.
  induction 1 as [|msg rest Hm _ IH]; simpl; [constructor|].
  assert (Hsub : exists ap, submission target msg = [ap]).
  { unfold prepared in Hm. unfold submission.
    destruct (as_bytes msg) as [mb|]; [|discriminate].
    destruct (get_message_date msg) as [md|]; [|discriminate].
    eexists. reflexivity. }
  destruct Hsub as [ap Hsub]. rewrite Hsub. simpl.
  constructor; [exact Hsub | exact IH].
Qed.

(** C7, amended.  The appends of the loop are those of the records
    that could be prepared, each once and in the order of the source
    sequence; a record whose preparation raised has none.  When every
    record is prepared the appends are the source sequence itself.  A run
    of [main] issues these appends for the archive, or none when it stops
    before the loop. *)
Theorem appends_follow_source_order (W : World) :
  (forall target i msgs s,
      appends (out (after_loop W target i msgs s)) =
      appends (out s) ++ flat_map (submission target) msgs) /\
  (forall target msgs,
      Forall (fun msg => prepared msg = true) msgs ->
      one_append_per_record target (flat_map (submission target) msgs) msgs) /\
  (forall target msg, prepared msg = false -> submission target msg = []) /\
  appends_from_archive W (snd (run W)).
Proof.
  split; [|split; [|split]].
  - intros. apply after_loop_appends.
  - apply flat_map_submission_prepared.
  - intros target msg. unfold prepared, submission.
    destruct (as_bytes msg); [|reflexivity].
    destruct (get_message_date msg); [discriminate|reflexivity].
  - apply run_appends.
Qed.

End Claims.

(** ** The properties on sample runs *)

Lemma counters_monotone_and_bounded_witness :
  total_messages Sample.entered
  = length ([Sample.dated] ++ [Sample.unserializable] ++ [Sample.undated]) /\
  uploaded_count Sample.entered = 0 /\
  error_count Sample.entered = 0 /\
  uploaded_count
    (@after_loop Sample.dates Sample.mixed Sample.target 0
       ([Sample.dated] ++ [Sample.unserializable] ++ [Sample.undated]) Sample.entered)
  + error_count
    (@after_loop Sample.dates Sample.mixed Sample.target 0
       ([Sample.dated] ++ [Sample.unserializable] ++ [Sample.undated]) Sample.entered)
  = total_messages
    (@after_loop Sample.dates Sample.mixed Sample.target 0
       ([Sample.dated] ++ [Sample.unserializable] ++ [Sample.undated]) Sample.entered).
Proof.
  repeat (split; [reflexivity|]).
  pose proof (@counters_monotone_and_bounded Sample.dates Sample.mixed Sample.target
                [Sample.dated] [Sample.unserializable] [Sample.undated] Sample.entered
                eq_refl eq_refl eq_refl) as H.
  cbv zeta in H. destruct H as (_ & _ & _ & _ & _ & _ & _ & H & _). exact H.
Defined.

Lemma append_failure_is_contained_witness :
  failed_reply (append Sample.rejecting (length [Sample.dated]) (quoted Sample.target)
                       None None (Sample.b "two")) = true /\
  @upload_loop Sample.dates Sample.rejecting Sample.target 0
    ([Sample.dated] ++ Sample.undated :: [Sample.misdated]) Sample.entered
  = (Ok tt,
     @after_loop Sample.dates Sample.rejecting Sample.target 0
       ([Sample.dated] ++ Sample.undated :: [Sample.misdated]) Sample.entered).
Proof.
  split; [reflexivity|].
  pose proof (@append_failure_is_contained Sample.dates Sample.rejecting Sample.target
                [Sample.dated] Sample.undated [Sample.misdated] Sample.entered
                (Sample.b "two") None eq_refl eq_refl eq_refl) as H.
  cbv zeta in H. destruct H as (_ & _ & _ & _ & H & _). exact H.
Defined.

(** Scenario E of the specification: one rejected append out of
    three, the others still occur, in order. *)
Example rejecting_run_counts :
  let s := snd (@run Sample.dates Sample.rejecting) in
  (total_messages s, uploaded_count s, error_count s) = (3, 2, 1) /\
  map payload (appends (out s)) = [Sample.b "one"; Sample.b "two"; Sample.b "three"].
Proof. vm_compute. split; reflexivity. Qed.

Lemma preparation_fault_is_contained_witness :
  @prepared Sample.dates Sample.unserializable = false /\
  error_count (@after_message Sample.dates Sample.mixed Sample.target 1
                 Sample.unserializable Sample.entered)
  = error_count Sample.entered + 1.
Proof.
  split; [reflexivity|].
  pose proof (@preparation_fault_is_contained Sample.dates Sample.mixed Sample.target 1
                Sample.unserializable [Sample.undated] Sample.entered eq_refl) as H.
  cbv zeta in H. destruct H as (_ & H & _). exact H.
Defined.

(** A fault of the date derivation ([msg.get] raising) is contained
    the same way. *)
Example unreadable_is_counted_as_error :
  let s := @after_message Sample.dates Sample.mixed Sample.target 0
             Sample.unreadable Sample.entered in
  @get_message_date Sample.dates Sample.unreadable = Raises (OtherException "KeyError") /\
  (uploaded_count s, error_count s) = (0, 1) /\ appends (out s) = [].
Proof. vm_compute. repeat split. Qed.

Lemma unusable_date_is_omitted_witness :
  @date_unusable Sample.dates Sample.misdated = true /\
  @get_message_date Sample.dates Sample.misdated = Returns None.
Proof.
  split; [reflexivity|].
  exact (proj1 (@unusable_date_is_omitted Sample.dates Sample.mixed Sample.target 2
                  Sample.misdated Sample.entered eq_refl)).
Defined.

(** Scenario B of the specification: the record with the unparseable
    date is appended without a date and counted as uploaded. *)
Example misdated_is_uploaded :
  let s := snd (@run Sample.dates (Sample.world [Sample.dated; Sample.misdated; Sample.undated])) in
  (total_messages s, uploaded_count s, error_count s) = (3, 3, 0) /\
  map (fun ap => snd (fst ap)) (appends (out s))
  = [Some (quoted "Mon, 01 Jan 2024 10:00:00 +0000"); None; None].
Proof. vm_compute. split; reflexivity. Qed.

Lemma provisioning_ready_iff_witness :
  create Sample.existing (quoted (target_of Sample.existing))
  = Returns ("NO"%string, [Sample.b "[ALREADYEXISTS] Mailbox exists"]) /\
  ensure Sample.existing (target_of Sample.existing) = Ok tt.
Proof.
  split; [reflexivity|].
  destruct (@provisioning_ready_iff Sample.dates Sample.existing "NO"
              [Sample.b "[ALREADYEXISTS] Mailbox exists"] eq_refl) as [[_ Hready] _].
  apply Hready. right. reflexivity.
Defined.

(** A refused creation stops the run with [sys.exit(1)]; no append. *)
Example refusing_run_stops :
  let r := @run Sample.dates Sample.refusing in
  fst r = Stop (SystemExit 1) /\ appends (out (snd r)) = [] /\
  existsb is_logout (out (snd r)) = true.
Proof. vm_compute. repeat split. Qed.

Lemma failed_connection_exits_zero_witness :
  configured Sample.unresolvable = true /\
  connection Sample.unresolvable = Raises (gaierror "Name or service not known") /\
  exit_status (fst (@run Sample.dates Sample.unresolvable)) = 0%Z.
Proof.
  split; [reflexivity|]. split; [reflexivity|].
  exact (proj1 (proj2 (@failed_connection_exits_zero Sample.dates Sample.unresolvable
                         (gaierror "Name or service not known") eq_refl eq_refl))).
Defined.

Lemma payload_is_unmodified_witness :
  exists msgs msg,
    list_mbox Sample.mixed = Returns msgs /\ In msg msgs /\
    as_bytes msg = Returns (Sample.b "two").
Proof.
  apply (proj2 (@payload_is_unmodified Sample.dates Sample.mixed)
               (quoted Sample.target, None, None, Sample.b "two")).
  vm_compute. right. left. reflexivity.
Defined.

(** C6 as stated fails: this record is stored with CRLF line ends,
    [as_bytes()] returns it with LF line ends, and these are the bytes
    the run appends: they are not the bytes stored in the archive. *)
Lemma reserialized_payload_differs :
  map payload (appends (out (snd (@run Sample.dates
                                    (Sample.world [message_object Wire.crlf])))))
  = [Wire.flattened] /\
  Wire.flattened <> stored Wire.crlf /\
  ~ @transmitted_as_stored Sample.dates Sample.target Wire.crlf.
Proof.
  split; [vm_compute; reflexivity|]. split; [discriminate|].
  intros H.
  assert (Hin : In (quoted Sample.target, @None string, @None string, Wire.flattened)
                   (@submission Sample.dates Sample.target (message_object Wire.crlf)))
    by (vm_compute; left; reflexivity).
  apply H in Hin. vm_compute in Hin. discriminate Hin.
Qed.

(** C7 as stated fails: the second record of this archive cannot be
    serialized, the run completes, and the appends are not the source
    sequence: the record is left out. *)
Lemma skipped_record_has_no_append :
  fst (@run Sample.dates (Sample.world [Sample.dated; Sample.unserializable])) = Ok tt /\
  ~ @one_append_per_record Sample.dates Sample.target
      (appends (out (snd (@run Sample.dates
                            (Sample.world [Sample.dated; Sample.unserializable])))))
      [Sample.dated; Sample.unserializable].
Proof.
  split; [vm_compute; reflexivity|].
  intros H. unfold one_append_per_record in H.
  assert (Hlen := Forall2_length H). vm_compute in Hlen. discriminate Hlen.
Qed.

Lemma appends_follow_source_order_witness :
  @one_append_per_record Sample.dates Sample.target
    (flat_map (@submission Sample.dates Sample.target) [Sample.dated; Sample.misdated])
    [Sample.dated; Sample.misdated].
Proof.
  apply (proj1 (proj2 (@appends_follow_source_order Sample.dates Sample.mixed))).
  repeat constructor.
Defined.

Lemma raised_append_skips_delay_witness :
  as_bytes Sample.dated = Returns (Sample.b "one") /\
  append Sample.timing_out 0 (quoted Sample.target) None
         (Some (quoted "Mon, 01 Jan 2024 10:00:00 +0000")) (Sample.b "one")
  = Raises (OtherException "timed out") /\
  out (@after_message Sample.dates Sample.timing_out Sample.target 0 Sample.dated Sample.entered)
  = out Sample.entered
    ++ [Append (quoted Sample.target) None
               (Some (quoted "Mon, 01 Jan 2024 10:00:00 +0000")) (Sample.b "one");
        Print (CriticalError (0 + 1) (total_messages Sample.entered)
                             (OtherException "timed out"))].
Proof.
  split; [reflexivity|]. split; [reflexivity|].
  exact (@raised_append_skips_delay Sample.dates Sample.timing_out Sample.target 0
           Sample.dated Sample.entered (Sample.b "one")
           (Some (quoted "Mon, 01 Jan 2024 10:00:00 +0000"))
           (OtherException "timed out") eq_refl eq_refl eq_refl).
Defined.

(** The whole run: between the append that raised and the next append
    there is no delay; the only delay follows the append that returned. *)
Example timing_out_run_pacing :
  filter (fun ev => is_append ev || is_sleep ev)
         (out (snd (@run Sample.dates Sample.timing_out)))
  = [Append (quoted Sample.target) None
            (Some (quoted "Mon, 01 Jan 2024 10:00:00 +0000")) (Sample.b "one");
     Append (quoted Sample.target) None None (Sample.b "two");
     Sleep UPLOAD_DELAY_SECONDS].
Proof. reflexivity. Qed.

Lemma logout_attempted_and_harmless_witness :
  connected Sample.bad_logout = true /\
  In Logout (out (snd (@run Sample.dates Sample.bad_logout))).
Proof.
  split; [reflexivity|].
  destruct (@logout_attempted_and_harmless Sample.dates Sample.bad_logout eq_refl)
    as [E (r & t & u & e & pre & H)].
  rewrite <- E, H. simpl. apply in_or_app. right. right. left. reflexivity.
Defined.

(** With a logout that raises the run still reports the one upload and
    ends with status 0. *)
Example bad_logout_run :
  let r := @run Sample.dates Sample.bad_logout in
  exit_status (fst r) = 0%Z /\
  (total_messages (snd r), uploaded_count (snd r), error_count (snd r)) = (1, 1, 0) /\
  filter (fun ev => negb (is_append ev || is_sleep ev)) (skipn 19 (out (snd r)))
  = [Print SummaryHeader; Print (SummaryTotal 1); Print (SummaryUploaded 1);
     Print (SummaryErrors 0); Print LoggingOut; Logout;
     Print (LogoutError (OtherException "socket closed")); Print ScriptFinished].
Proof. vm_compute. repeat split. Qed.

(** * Further properties of the script *)

(** ** [get_imap_details] *)

Lemma or_else_truthy (a b : string) : truthy b = true -> truthy (or_else a b) = true.
Proof. unfold or_else. destruct (truthy a) eqn:Ha; auto. Qed.

Lemma truthy_iff (s : string) : truthy s = true <-> s <> ""%string.
Proof.
  unfold truthy. destruct (String.eqb_spec s ""); simpl; split; congruence.
Qed.

Lemma defaults_fill_host_and_folder_aux (int : string -> option Z) (a : Answers)
    (host : string) (port : Z) (use_ssl : bool) (user password target : string) :
  details_of int a = (host, port, use_ssl, user, password, target) ->
  truthy host = true /\ truthy target = true /\
  user = user_answer a /\ password = password_answer a.
Proof.
  unfold details_of, get_imap_details.
  destruct (int (or_else (port_answer a) (str_int DEFAULT_IMAP_PORT))); simpl;
    intros [= <- _ _ <- <- <-];
    repeat split; apply or_else_truthy; reflexivity.
Qed.

(** X1.  The host and the folder name [get_imap_details] returns are
    never empty: an empty answer is replaced by the default, any other
    answer is returned as typed.  The user name and the password are
    returned as typed, empty or not. *)
Theorem defaults_fill_host_and_folder (int : string -> option Z) (a : Answers)
    (host : string) (port : Z) (use_ssl : bool) (user password target : string) :
  details_of int a = (host, port, use_ssl, user, password, target) ->
  truthy host = true /\ truthy target = true /\
  host = (if String.eqb (host_answer a) "" then DEFAULT_IMAP_HOST else host_answer a) /\
  target = (if String.eqb (folder_answer a) "" then DEFAULT_TARGET_MAILBOX else folder_answer a) /\
  user = user_answer a /\ password = password_answer a.
Proof.
  unfold details_of, get_imap_details.
  destruct (int (or_else (port_answer a) (str_int DEFAULT_IMAP_PORT))); simpl;
    intros [= <- _ _ <- <- <-];
    (repeat split; try (apply or_else_truthy; reflexivity));
    unfold or_else, truthy; destruct (String.eqb _ ""); reflexivity.
Qed.

(** X2.  TLS is switched off exactly when the answer to the SSL
    prompt is "no" in some case of letters; every other answer, empty,
    "yes" or anything else, leaves it on. *)
Theorem only_no_disables_ssl (int : string -> option Z) (a : Answers)
    (host : string) (port : Z) (use_ssl : bool) (user password target : string) :
  details_of int a = (host, port, use_ssl, user, password, target) ->
  (use_ssl = false <-> lower (ssl_answer a) = "no"%string).
Proof.
  unfold details_of, get_imap_details.
  destruct (int (or_else (port_answer a) (str_int DEFAULT_IMAP_PORT))); simpl;
    intros [= _ _ <- _ _ _];
    destruct (String.eqb_spec (lower (ssl_answer a)) "no") as [Hno|Hno];
    try (split; [intros _; exact Hno | reflexivity]);
    destruct (String.eqb (lower (ssl_answer a)) "yes"); simpl;
    (split; [discriminate | contradiction]).
Qed.

(** X3.  The port is whatever [int] reads from the answer (from
    "993" when the answer is empty), with no check of its range; when
    [int] rejects the text the port is [DEFAULT_IMAP_PORT] and the notice
    about it is printed, once, after the SSL prompt. *)
Theorem port_read_or_default (int : string -> option Z) (a : Answers)
    (host : string) (port : Z) (use_ssl : bool) (user password target : string) :
  details_of int a = (host, port, use_ssl, user, password, target) ->
  let port_str := if String.eqb (port_answer a) "" then "993"%string else port_answer a in
  let notice := Shown "Invalid port number. Using default: 993" in
  (forall n, int port_str = Some n ->
             port = n /\ ~ In notice (fst (get_imap_details int a))) /\
  (int port_str = None ->
   port = DEFAULT_IMAP_PORT /\ nth_error (fst (get_imap_details int a)) 4 = Some notice).
Proof.
  cbv zeta. unfold details_of, get_imap_details.
  assert (Hstr : or_else (port_answer a) (str_int DEFAULT_IMAP_PORT)
                 = if String.eqb (port_answer a) "" then "993"%string else port_answer a).
  { unfold or_else, truthy. destruct (String.eqb (port_answer a) ""); reflexivity. }
  rewrite Hstr.
  destruct (int (if String.eqb (port_answer a) "" then "993"%string else port_answer a));
    simpl; intros [= _ <- _ _ _ _]; split.
  - intros n [= <-]. split; [reflexivity|].
    intros H. repeat (destruct H as [H|H]; [discriminate H|]). exact H.
  - discriminate.
  - discriminate.
  - intros _. split; reflexivity.
Qed.

(** X4.  With the details [get_imap_details] returns, the check of
    lines 93-95 can only fail on a port read as 0, an empty user name or
    an empty password: the host and the folder never count as missing. *)
Theorem missing_details_are_port_user_password (W : World) (int : string -> option Z)
    (a : Answers) :
  imap_details W = details_of int a ->
  (configured W = true <->
   isfile W = true /\
   snd (fst (fst (fst (fst (details_of int a))))) <> 0%Z /\
   user_answer a <> ""%string /\ password_answer a <> ""%string).
Proof.
  intros Hd. unfold configured. rewrite Hd.
  destruct (details_of int a) as [[[[[host port] use_ssl] user] password] target] eqn:Hdet.
  destruct (defaults_fill_host_and_folder_aux int a Hdet) as (Hh & Ht & Hu & Hp).
  subst user password. simpl. rewrite Hh, Ht. rewrite !andb_true_r. simpl.
  rewrite !andb_true_iff, !truthy_iff. unfold nonzero. rewrite negb_true_iff, Z.eqb_neq.
  tauto.
Qed.

(** ** Dates of ordinary messages *)

Section MoreClaims.

Context {L : DateLib}.

(** X5.  When the [Date] header can be read, [get_message_date] does
    not raise, whatever the date routines do: it returns [None], or the
    internal date that [Time2Internaldate], [mktime], [timetuple] and
    [parsedate_to_datetime] make of the non-empty header value. *)
Theorem get_message_date_returns (msg : Message) (v : option string) :
  get msg "Date" = Returns v ->
  get_message_date msg = Returns None \/
  exists text dt tt ts internal,
    v = Some text /\ text <> ""%string /\
    parsedate_to_datetime text = Returns dt /\ timetuple dt = Returns tt /\
    mktime tt = Returns ts /\ Time2Internaldate ts = Returns internal /\
    get_message_date msg = Returns (Some internal).
Proof.
  intros Hget. unfold get_message_date, and_then. rewrite Hget.
  destruct v as [text|]; [|left; reflexivity].
  destruct (String.eqb_spec text "") as [He|He]; [left; reflexivity|].
  destruct (parsedate_to_datetime text) as [dt|] eqn:Hp; [|left; reflexivity].
  destruct (timetuple dt) as [tt|] eqn:Ht; [|left; reflexivity].
  destruct (mktime tt) as [ts|] eqn:Hm; [|left; reflexivity].
  destruct (Time2Internaldate ts) as [internal|] eqn:Hi; [|left; reflexivity].
  right. exists text, dt, tt, ts, internal. repeat split; auto.
Qed.

Lemma readable_prepared (msg : Message) : readable msg = true -> prepared msg = true.
Proof.
  unfold readable, prepared, get_message_date, and_then.
  destruct (as_bytes msg) as [mb|]; [|discriminate].
  destruct (get msg "Date") as [[text|]|]; [| reflexivity | discriminate].
  intros _. destruct (String.eqb text ""); [reflexivity|].
  destruct (parsedate_to_datetime text) as [dt|]; [|reflexivity].
  destruct (timetuple dt) as [tt|]; [|reflexivity].
  destruct (mktime tt) as [ts|]; [|reflexivity].
  destruct (Time2Internaldate ts); reflexivity.
Qed.

(** X6.  For an archive whose messages can be read ([msg.as_bytes()]
    and [msg.get('Date')] return), no record is left out, whatever the
    date routines raise: the loop issues one append per record, in the
    order of the archive, to the quoted folder, without flags, carrying
    the bytes [as_bytes()] returned for the record. *)
Theorem readable_archive_is_appended_whole (W : World) (target : string) (i : nat)
    (msgs : list Message) (s : state) :
  Forall (fun msg => readable msg = true) msgs ->
  let new := skipn (length (appends (out s)))
                   (appends (out (after_loop W target i msgs s))) in
  appends (out (after_loop W target i msgs s)) = appends (out s) ++ new /\
  one_append_per_record target new msgs /\
  Forall2 (fun ap msg => as_bytes msg = Returns (payload ap)) new msgs /\
  Forall (fun ap => fst (fst (fst ap)) = quoted target /\ snd (fst (fst ap)) = None) new.
Proof.
  intros Hread. cbv zeta. rewrite after_loop_appends.
  assert (Hskip : skipn (length (appends (out s)))
                    (appends (out s) ++ flat_map (submission target) msgs)
                  = flat_map (submission target) msgs).
  { rewrite skipn_app, skipn_all, Nat.sub_diag. reflexivity. }
  rewrite Hskip. clear Hskip. split; [reflexivity|].
  assert (Hone : one_append_per_record target (flat_map (submission target) msgs) msgs).
  { apply flat_map_submission_prepared.
    eapply Forall_impl; [|exact Hread]. intros msg. apply readable_prepared. }
  split; [exact Hone|].
  unfold one_append_per_record in Hone. clear Hread.
  induction Hone as [|ap msg aps rest Hsub _ IH]; [split; constructor|].
  assert (Hin : In ap (submission target msg)) by (rewrite Hsub; left; reflexivity).
  destruct (in_submission _ _ _ Hin) as (Hb & _ & Hm & Hf).
  destruct IH as [IH1 IH2].
  split; constructor; auto.
Qed.

(** ** What the loop prints *)

#[local] Arguments Nat.modulo : simpl never.
#[local] Arguments Nat.eqb : simpl never.

Lemma error_positions_app (l1 l2 : list event) :
  error_positions (l1 ++ l2) = error_positions l1 ++ error_positions l2.
Proof.
  induction l1 as [|ev l1 IH]; simpl; [reflexivity|].
  destruct ev as [l| | | | | |]; simpl; try exact IH.
  destruct l; simpl; rewrite ?IH; reflexivity.
Qed.

Ltac unfold_iteration :=
  unfold after_message, process_message, accepted, attempt, try_except,
    bind, call, lift, emit, print, read, raise, ret, incr_uploaded_count,
    incr_error_count, and_then.

Ltac close_positions :=
  repeat rewrite error_positions_app; simpl; rewrite ?app_nil_r, <- ?app_assoc; reflexivity.

Lemma after_message_error_positions (W : World) (target : string) (i : nat)
    (msg : Message) (s : state) :
  error_positions (out (after_message W target i msg s))
  = error_positions (out s) ++ (if accepted W target i msg then [] else [i + 1]).
Proof.
  unfold_iteration.
  destruct (as_bytes msg) as [mb|e]; simpl; [|close_positions].
  destruct (get_message_date msg) as [md|e]; simpl; [|close_positions].
  destruct (append W i (quoted target) None md mb) as [[status data]|e]; simpl;
    [|close_positions].
  destruct (String.eqb status "OK"); simpl; [|close_positions].
  destruct (_ || _); simpl; close_positions.
Qed.

(** X7.  Every record that is not counted as uploaded is reported by
    exactly one error line carrying its 1-based position, in the order of
    the archive; uploaded records get no error line; and the number of
    error lines the loop prints is the number it adds to [error_count]. *)
Theorem error_lines_report_failures (W : World) (target : string) (msgs : list Message)
    (i : nat) (s : state) :
  error_positions (out (after_loop W target i msgs s))
  = error_positions (out s) ++ failures W target i msgs /\
  error_count (after_loop W target i msgs s)
  = error_count s + length (failures W target i msgs) /\
  (forall p, In p (failures W target i msgs) <->
             exists k msg, nth_error msgs k = Some msg /\ p = i + k + 1 /\
                           accepted W target (i + k) msg = false).
Proof.
  revert i s. induction msgs as [|msg rest IH]; intros i s.
  - rewrite after_loop_nil. simpl. rewrite app_nil_r. repeat split; try lia.
    intros (k & m & Hk & _). destruct k; discriminate.
  - rewrite after_loop_cons.
    destruct (IH (S i) (after_message W target i msg s)) as (Hpos & Hcnt & Hin).
    destruct (after_message_counters W target i msg s) as (_ & _ & _ & He).
    cbv zeta in He. rewrite Hpos, Hcnt, after_message_error_positions, He.
    simpl failures. split; [|split].
    + rewrite <- app_assoc. reflexivity.
    + rewrite length_app. destruct (accepted W target i msg); simpl; lia.
    + intros p. rewrite in_app_iff, Hin. split.
      * intros [Hhere|(k & m & Hk & Hp & Hacc)].
        -- destruct (accepted W target i msg) eqn:Hacc; [destruct Hhere|].
           destruct Hhere as [<-|[]]. exists 0, msg. rewrite Nat.add_0_r. auto.
        -- exists (S k), m. simpl. replace (i + S k) with (S i + k) by lia.
           repeat split; auto; lia.
      * intros ([|k] & m & Hk & Hp & Hacc); simpl in Hk.
        -- injection Hk as <-. rewrite Nat.add_0_r in Hacc, Hp. rewrite Hacc.
           left. left. lia.
        -- right. exists k, m. replace (S i + k) with (i + S k) by lia.
           repeat split; auto; lia.
Qed.

Lemma accepted_inv (W : World) (target : string) (i : nat) (msg : Message) :
  accepted W target i msg = true ->
  exists mb md data,
    as_bytes msg = Returns mb /\ get_message_date msg = Returns md /\
    append W i (quoted target) None md mb = Returns ("OK"%string, data).
Proof.
  unfold accepted, attempt, and_then.
  destruct (as_bytes msg) as [mb|]; [|discriminate].
  destruct (get_message_date msg) as [md|]; [|discriminate].
  destruct (append W i (quoted target) None md mb) as [[status data]|] eqn:Ha;
    [|discriminate].
  intros H. apply String.eqb_eq in H. subst status. exists mb, md, data.
  repeat split; first [reflexivity | exact Ha].
Qed.

(** X8.  When the last record of the archive is uploaded, the loop
    ends with a progress line that shows the final count of uploads and
    the total, followed by the pacing delay, whether or not the count is
    a multiple of [PROGRESS_INTERVAL]. *)
Theorem last_upload_prints_final_count (W : World) (target : string)
    (msgs : list Message) (last : Message) (i : nat) (s : state) :
  total_messages s = i + length msgs + 1 ->
  accepted W target (i + length msgs) last = true ->
  let s' := after_loop W target i (msgs ++ [last]) s in
  exists pre,
    out s' = pre ++ [Print (Uploaded (uploaded_count s') (total_messages s'));
                     Sleep UPLOAD_DELAY_SECONDS].
Proof.
  intros Htot Hacc s'. unfold s'.
  rewrite after_loop_app, after_loop_cons, after_loop_nil.
  destruct (after_loop_counters W target msgs i s) as (_ & Ht & _).
  cbv zeta in Ht. rewrite Htot in Ht.
  set (s1 := after_loop W target i msgs s) in *.
  destruct (accepted_inv W target (i + length msgs) last Hacc) as (mb & md & data & Hb & Hd & Ha).
  unfold_iteration. rewrite Hb, Hd. simpl. rewrite Ha. simpl.
  assert (Hlast : (i + length msgs + 1 =? total_messages s1) = true)
    by (apply Nat.eqb_eq; lia).
  rewrite Hlast, orb_true_r. simpl.
  exists (out s1 ++ [Append (quoted target) None md mb]).
  rewrite <- !app_assoc. reflexivity.
Qed.

End MoreClaims.


(** ** Runs that reach the loop, and runs that do not *)

Lemma hoare_seq_returns {A B} (I : state -> Prop) (m : M A) (k : A -> M B)
    (Qn : B -> state -> Prop) :
  preserves I m ->
  (forall s, exists a, fst (m s) = Ok a) ->
  (forall a, hoare I (k a) Qn (fun _ => False)) ->
  hoare I (bind m k) Qn (fun _ => False).
Proof.
  intros Hm Hret Hk. apply hoare_bind with (R := fun _ => I); [|exact Hk].
  intros s Hs. specialize (Hm s Hs). destruct (Hret s) as [a Ha].
  destruct (m s) as [[a'|sg] s']; [exact Hm | discriminate Ha].
Qed.

Lemma emit_returns (ev : event) (s : state) : exists a, fst (emit ev s) = Ok a.
Proof. exists tt. reflexivity. Qed.

Lemma untouched_steady : steady untouched.
Proof.
  intros ev Hev sv t u e o [Ha Hc]. split.
  - eapply no_append_yet_steady; eassumption.
  - exact Hc.
Qed.

#[local] Hint Resolve untouched_steady : run_inv.

Section WholeRuns.

Context {L : DateLib}.
Variable W : World.

Lemma do_login_returns (user password status : string) (data : list bytes) (s : state) :
  login W user password = Returns (status, data) ->
  String.eqb status "OK" = true ->
  fst (do_login W user password s) = Ok tt.
Proof.
  intros Hl Hs. unfold do_login, try_except, bind, call, lift, print, emit, ret.
  simpl. rewrite Hl. simpl. rewrite Hs. reflexivity.
Qed.

Lemma do_login_stops (user password : string) (s : state) :
  match login W user password with
  | Returns (status, _) => String.eqb status "OK"
  | Raises _ => false
  end = false ->
  forall a, fst (do_login W user password s) <> Ok a.
Proof.
  intros Hl a. unfold do_login, try_except, bind, call, lift, print, emit, ret, raise, sys_exit.
  simpl. destruct (login W user password) as [[status data]|e]; simpl.
  - rewrite Hl. simpl. discriminate.
  - destruct e; simpl; discriminate.
Qed.

(** The body of the [try] when the run does not reach the loop: it
    stops with nothing appended and nothing counted. *)
Lemma transfer_stops_untouched (host : string) (port : Z) (ssl : bool)
    (user password target : string) :
  imap_details W = (host, port, ssl, user, password, target) ->
  configured W = true ->
  reaches_loop W = false ->
  hoare untouched (transfer W host port ssl user password target)
        (fun _ => untouched) untouched.
Proof.
  intros Hd Hconf Hno. unfold transfer.
  assert (Hstop : forall A (m : M A) B (k : A -> M B),
            preserves untouched m -> (forall s a, fst (m s) <> Ok a) ->
            hoare untouched (bind m k) (fun _ => untouched) untouched).
  { intros A m B k Hm Hnever.
    apply hoare_bind with (R := fun _ _ => False); [|intros a; apply hoare_False].
    apply hoare_never_returns; assumption. }
  unfold reaches_loop, connected in Hno. rewrite Hconf in Hno.
  unfold connection, login_ok, ready, archive, target_of in Hno.
  rewrite Hd in Hno. simpl in Hno.
  destruct (if ssl then IMAP4_SSL W host port else IMAP4 W host port) as [[]|e] eqn:Hc.
  2:{ apply Hstop; [destruct ssl; preserve|].
      intros s a. destruct ssl; rewrite Hc; discriminate. }
  apply hoare_seq_keep; [destruct ssl; preserve | auto | intros _].
  apply hoare_seq_keep; [intros [sv t u e o] H; exact H | auto | intros _].
  apply hoare_seq_keep; [preserve | auto | intros _].
  destruct (match login W user password with
            | Returns (status, _) => String.eqb status "OK"
            | Raises _ => false end) eqn:Hl.
  2:{ apply Hstop; [apply do_login_keeps; auto with run_inv|].
      intros s a. apply do_login_stops, Hl. }
  apply hoare_seq_keep; [apply do_login_keeps; auto with run_inv | auto | intros _].
  destruct (ensure W target) as [[]|sg] eqn:He.
  2:{ apply Hstop; [apply prepare_target_keeps; auto with run_inv|].
      intros s a. rewrite (prepare_target_result W target s), He. discriminate. }
  apply hoare_seq_keep; [apply prepare_target_keeps; auto with run_inv | auto | intros _].
  apply hoare_seq_keep; [preserve | auto | intros _].
  destruct (mbox W (mbox_path W)) as [[]|e] eqn:Hm.
  2:{ apply Hstop; [preserve|]. intros s a. discriminate. }
  apply hoare_seq_keep; [preserve | auto | intros _].
  apply hoare_seq_keep; [preserve | auto | intros _].
  destruct (list_mbox W) as [msgs|e] eqn:Hlist; [discriminate Hno|].
  apply Hstop; [preserve|]. intros s a. discriminate.
Qed.

Lemma greeted_untouched : untouched (greeted W).
Proof.
  unfold greeted. destruct (imap_details W) as [[[[[host port] ssl] user] password] target].
  split; [reflexivity | repeat split].
Qed.

(** X9.  A run that does not reach the loop (a failed check, a failed
    connection, login, provisioning, or an archive that cannot be opened
    or read) issues no append and leaves all three counters at 0. *)
Theorem nothing_is_sent_before_the_loop :
  reaches_loop W = false ->
  appends (out (snd (run W))) = [] /\
  total_messages (snd (run W)) = 0 /\
  uploaded_count (snd (run W)) = 0 /\
  error_count (snd (run W)) = 0.
Proof.
  intros Hno.
  destruct (configured W) eqn:Hconf.
  2:{ destruct (misconfigured_exits_one W Hconf) as [l Hrun]. rewrite Hrun.
      repeat split. }
  rewrite (main_configured W Hconf).
  assert (H : hoare untouched (try_finally (guarded_transfer W) (cleanup W))
                    (fun _ => untouched) untouched).
  { apply hoare_try_finally with (R := untouched);
      [|apply hoare_keeps, cleanup_keeps; auto with run_inv].
    unfold guarded_transfer.
    destruct (imap_details W) as [[[[[host port] ssl] user] password] target] eqn:Hd.
    apply hoare_try_except with (R := untouched); [| |auto].
    - apply transfer_stops_untouched; assumption.
    - intros e h He. apply hoare_keeps. eapply report_failure_keeps; eauto with run_inv. }
  specialize (H (greeted W) greeted_untouched).
  destruct (try_finally (guarded_transfer W) (cleanup W) (greeted W)) as [[u|sg] s];
    destruct H as (Ha & Ht & Hu & He); simpl; auto.
Qed.

(** The body of the [try] when the run reaches the loop. *)
Lemma transfer_completes (host : string) (port : Z) (ssl : bool)
    (user password target : string) (msgs : list Message) :
  imap_details W = (host, port, ssl, user, password, target) ->
  reaches_loop W = true ->
  archive W = Some msgs ->
  hoare untouched (transfer W host port ssl user password target)
        (fun _ => summarized target msgs) (fun _ => False).
Proof.
  intros Hd Hyes Harch. unfold transfer.
  unfold reaches_loop, connected in Hyes.
  apply andb_true_iff in Hyes as [Hyes _].
  apply andb_true_iff in Hyes as [Hyes Hready].
  apply andb_true_iff in Hyes as [Hyes Hlogin].
  apply andb_true_iff in Hyes as [_ Hconn].
  unfold connection in Hconn. unfold login_ok in Hlogin.
  unfold ready, target_of in Hready. unfold archive in Harch.
  rewrite Hd in Hconn, Hlogin, Hready.
  destruct (if ssl then IMAP4_SSL W host port else IMAP4 W host port) as [[]|] eqn:Hc;
    [|discriminate].
  destruct (login W user password) as [[status data]|] eqn:Hl; [|discriminate].
  destruct (ensure W target) as [[]|] eqn:He; [|discriminate].
  destruct (mbox W (mbox_path W)) as [[]|] eqn:Hm; [|discriminate].
  destruct (list_mbox W) as [ml|] eqn:Hlist; [|discriminate].
  injection Harch as ->.
  apply hoare_seq_returns.
  { destruct ssl; preserve. }
  { intros s. exists tt. destruct ssl; rewrite Hc; reflexivity. }
  intros _. apply hoare_seq_returns;
    [intros [sv t u e o] H; exact H | intros s; exists tt; reflexivity | intros _].
  apply hoare_seq_returns; [preserve | apply emit_returns | intros _].
  apply hoare_seq_returns; [apply do_login_keeps; auto with run_inv | | intros _].
  { intros s. exists tt. eapply do_login_returns; eassumption. }
  apply hoare_seq_returns; [apply prepare_target_keeps; auto with run_inv | | intros _].
  { intros s. exists tt. rewrite prepare_target_result. exact He. }
  apply hoare_seq_returns; [preserve | apply emit_returns | intros _].
  apply hoare_seq_returns; [preserve | intros s; exists tt; reflexivity | intros _].
  apply hoare_seq_returns; [preserve | apply emit_returns | intros _].
  apply hoare_bind with (R := fun ml s => untouched s /\ ml = msgs).
  { intros s Hs. simpl. split; [exact Hs | reflexivity]. }
  intros message_list s [[Ha (Ht & Hu & Herr)] ->].
  unfold bind, set_total_messages, print, emit, read. simpl.
  rewrite upload_loop_returns. simpl.
  match goal with
  | |- context [after_loop W target 0 msgs ?s0] =>
      destruct (after_loop_counters W target msgs 0 s0) as (_ & Ht' & _ & _ & Hsum);
      pose proof (after_loop_appends W target msgs 0 s0) as Happ;
      set (s1 := after_loop W target 0 msgs s0) in *
  end.
  simpl in Ht', Hsum, Happ. unfold summarized. simpl.
  split; [exact Ht'|]. split; [lia|].
  exists (out s1). split.
  - rewrite <- !app_assoc. reflexivity.
  - rewrite Happ, appends_app. unfold no_append_yet in Ha. rewrite Ha. reflexivity.
Qed.

(** X10.  A run that reaches the loop returns normally, so the
    process ends with status 0 however many records failed; it leaves
    [total_messages] at the size of the archive with every record counted
    once, its appends are those of the records in order, and its last
    lines are the summary with these very counts followed by the logout. *)
Theorem completed_run_reports_counts :
  reaches_loop W = true ->
  exists msgs u e pre,
    archive W = Some msgs /\ u + e = length msgs /\
    appends pre = flat_map (submission (target_of W)) msgs /\
    run W = (Ok tt,
             mkState true (length msgs) u e
               (pre ++ [Print SummaryHeader; Print (SummaryTotal (length msgs));
                        Print (SummaryUploaded u); Print (SummaryErrors e)]
                    ++ logout_events (logout W))) /\
    exit_status (fst (run W)) = 0%Z.
Proof.
  intros Hyes.
  assert (Hconn : connected W = true).
  { unfold reaches_loop in Hyes. do 3 (apply andb_true_iff in Hyes as [Hyes _]). exact Hyes. }
  assert (Hconf : configured W = true).
  { unfold connected in Hconn. apply andb_true_iff in Hconn as [Hconf _]. exact Hconf. }
  destruct (archive W) as [msgs|] eqn:Harch.
  2:{ unfold reaches_loop in Hyes. rewrite Harch, andb_false_r in Hyes. discriminate. }
  pose proof (guarded_transfer_binds_server W Hconn) as Hsrv.
  assert (Hg : exists s2, guarded_transfer W (greeted W) = (Ok tt, s2)
                          /\ summarized (target_of W) msgs s2).
  { unfold guarded_transfer, target_of.
    destruct (imap_details W) as [[[[[host port] ssl] user] password] target] eqn:Hd.
    pose proof (transfer_completes Hd Hyes Harch greeted_untouched) as H.
    unfold try_except.
    destruct (transfer W host port ssl user password target (greeted W)) as [[[]|sg] s2];
      [|contradiction].
    exists s2. split; [reflexivity | exact H]. }
  destruct Hg as (s2 & Hg & Ht & Hsum & pre & Hout & Happ).
  rewrite Hg in Hsrv. destruct s2 as [sv t u e o]. simpl in *. subst sv t o.
  assert (Hrun : run W = (Ok tt,
             mkState true (length msgs) u e
               (pre ++ [Print SummaryHeader; Print (SummaryTotal (length msgs));
                        Print (SummaryUploaded u); Print (SummaryErrors e)]
                    ++ logout_events (logout W)))).
  { rewrite (main_configured W Hconf). unfold try_finally.
    rewrite Hg, cleanup_connected, <- app_assoc. reflexivity. }
  exists msgs, u, e, pre. rewrite Hrun. repeat split; auto.
Qed.

Lemma failed_login_run :
  connected W = true ->
  login_ok W = false ->
  exists s,
    run W =
    ((let '(_, _, _, imap_user, imap_password, _) := imap_details W in
      match login W imap_user imap_password with
      | Returns _ | Raises (IMAP4_error _) => Stop (SystemExit 1)
      | Raises _ => Ok tt
      end), s) /\
    existsb is_create (out s) = false /\
    appends (out s) = [] /\
    existsb is_logout (out s) = true.
Proof.
  intros Hconn Hlogin.
  unfold connected in Hconn. apply andb_true_iff in Hconn as [Hconf Hc].
  rewrite (main_configured W Hconf).
  unfold connection in Hc. unfold login_ok in Hlogin.
  unfold try_finally, guarded_transfer, greeted, transfer, try_except, do_login.
  destruct (imap_details W) as [[[[[host port] ssl] user] password] target].
  assert (Hcall : forall s,
    (if ssl then call (Connect true host port) (IMAP4_SSL W host port)
     else call (Connect false host port) (IMAP4 W host port)) s =
    (Ok tt, mkState (server s) (total_messages s) (uploaded_count s)
                    (error_count s) (out s ++ [Connect ssl host port]))).
  { intros s. destruct ssl;
      [destruct (IMAP4_SSL W host port) as [[]|] | destruct (IMAP4 W host port) as [[]|]];
      try discriminate; reflexivity. }
  unfold bind at 1. rewrite Hcall.
  unfold bind, call, lift, print, emit, bind_server, sys_exit, ret, raise. simpl.
  unfold cleanup, try_except, bind, call, lift, read, print, emit, ret, raise.
  destruct (login W user password) as [[status data]|e]; simpl.
  - rewrite Hlogin. simpl. destruct (logout W); simpl; eexists; repeat split.
  - destruct e; simpl; destruct (logout W); simpl; eexists; repeat split.
Qed.

(** X11.  When the login is refused (a reply other than OK, or
    [imaplib.IMAP4.error]) the run ends with [sys.exit(1)]; when the
    login call raises any other exception the outer clauses print it and
    [main] returns.  In both cases no create request and no append is
    sent, and the logout is still called. *)
Theorem failed_login_stops_before_create :
  connected W = true ->
  login_ok W = false ->
  existsb is_create (out (snd (run W))) = false /\
  appends (out (snd (run W))) = [] /\
  existsb is_logout (out (snd (run W))) = true /\
  fst (run W) =
  (let '(_, _, _, imap_user, imap_password, _) := imap_details W in
   match login W imap_user imap_password with
   | Returns _ | Raises (IMAP4_error _) => Stop (SystemExit 1)
   | Raises _ => Ok tt
   end).
Proof.
  intros Hconn Hlogin.
  destruct (failed_login_run Hconn Hlogin) as (s & Hrun & Hcreate & Happ & Hlog).
  rewrite Hrun. simpl. auto.
Qed.

(** X12.  When the create request raises, provisioning ends with the
    folder ready exactly when the exception is an [imaplib.IMAP4.error]
    whose text says "exists" in some case of letters; an
    [imaplib.IMAP4.error] without it ends in [sys.exit(1)], and any other
    exception is passed on to the outer clauses. *)
Theorem raised_create_decides_provisioning (target : string) (e : Exception) :
  create W (quoted target) = Raises e ->
  (ensure W target = Ok tt <->
   exists msg, e = IMAP4_error msg /\ says_exists msg = true) /\
  (forall msg, e = IMAP4_error msg -> says_exists msg = false ->
               ensure W target = Stop (SystemExit 1)) /\
  ((forall msg, e <> IMAP4_error msg) -> ensure W target = Stop (Raise e)).
Proof.
  intros Hc. rewrite (ensure_raised W target Hc).
  destruct e as [msg|msg|msg|msg]; (split; [|split]).
  - destruct (says_exists msg) eqn:Hs; split.
    + intros _. exists msg. auto.
    + reflexivity.
    + discriminate.
    + intros (m & [= <-] & Hm). congruence.
  - intros m [= <-] Hs. rewrite Hs. reflexivity.
  - intros H. exfalso. apply (H msg). reflexivity.
  - split; [discriminate | intros (m & Hm & _); discriminate].
  - intros m Hm. discriminate.
  - reflexivity.
  - split; [discriminate | intros (m & Hm & _); discriminate].
  - intros m Hm. discriminate.
  - reflexivity.
  - split; [discriminate | intros (m & Hm & _); discriminate].
  - intros m Hm. discriminate.
  - reflexivity.
Qed.

(** X13.  A run that never bound [server] (a failed check, or a
    constructor that raised) does not call [logout], and sends nothing. *)
Theorem no_logout_without_connection :
  connected W = false ->
  ~ In Logout (out (snd (run W))) /\
  appends (out (snd (run W))) = [] /\
  server (snd (run W)) = false.
Proof.
  intros Hno. unfold connected in Hno.
  destruct (configured W) eqn:Hconf.
  - simpl in Hno. destruct (connection W) as [[]|e] eqn:Hc; [discriminate|].
    destruct (failed_connection_run W Hconf Hc) as (o & Hrun & Happ & Hlog).
    rewrite Hrun. simpl. auto.
  - destruct (misconfigured_exits_one W Hconf) as [l Hrun]. rewrite Hrun. simpl.
    repeat split. intros [H|[]]. discriminate H.
Qed.

(** X14.  Every append of a run is addressed to the quoted name of the
    chosen folder, carries no flags, and carries the bytes and the date
    that [as_bytes] and [get_message_date] returned for one record of the
    archive. *)
Theorem appends_carry_no_flags
    (ap : string * option string * option string * bytes) :
  In ap (appends (out (snd (run W)))) ->
  fst (fst (fst ap)) = quoted (target_of W) /\
  snd (fst (fst ap)) = None /\
  exists msgs msg,
    list_mbox W = Returns msgs /\ In msg msgs /\
    as_bytes msg = Returns (payload ap) /\
    get_message_date msg = Returns (snd (fst ap)).
Proof.
  intros Hin. destruct (run_appends W) as [Hnone|(msgs & Hl & Happ)].
  - rewrite Hnone in Hin. destruct Hin.
  - rewrite Happ in Hin. apply in_flat_map in Hin as (msg & Hmsg & Hsub).
    destruct (in_submission _ _ _ Hsub) as (Hb & Hd & Hm & Hf).
    repeat split; auto. exists msgs, msg. auto.
Qed.

End WholeRuns.

(** ** The word "exists" in the reply to the create request *)

Lemma string_app_assoc (a b c : string) : ((a ++ b) ++ c = a ++ (b ++ c))%string.
Proof. induction a as [|x a IH]; simpl; [reflexivity | rewrite IH; reflexivity]. Qed.

Lemma concat_empty_cons (x : string) (xs : list string) :
  String.concat "" (x :: xs) = (x ++ String.concat "" xs)%string.
Proof. rewrite concat_cons. destruct xs; reflexivity. Qed.

Lemma concat_empty_app (l1 l2 : list string) :
  String.concat "" (l1 ++ l2) = (String.concat "" l1 ++ String.concat "" l2)%string.
Proof.
  induction l1 as [|x l1 IH]; [reflexivity|].
  change ((x :: l1) ++ l2) with (x :: (l1 ++ l2)).
  rewrite !concat_empty_cons, IH, string_app_assoc. reflexivity.
Qed.

Lemma is_letter_bounds (c : ascii) :
  is_letter c = true ->
  65 <= nat_of_ascii c <= 90 \/ 97 <= nat_of_ascii c <= 122.
Proof.
  unfold is_letter. intros H. apply orb_true_iff in H as [H|H];
    apply andb_true_iff in H as [H1 H2];
    apply Nat.leb_le in H1; apply Nat.leb_le in H2; [left | right]; split; assumption.
Qed.

Lemma lower_char_letter (c : ascii) : is_letter (lower_char c) = true -> is_letter c = true.
Proof.
  unfold lower_char.
  destruct ((65 <=? nat_of_ascii c) && (nat_of_ascii c <=? 90)) eqn:H; [|auto].
  intros _. unfold is_letter. rewrite H. reflexivity.
Qed.

Lemma letters_lower (s : string) : letters (lower s) = true -> letters s = true.
Proof.
  induction s as [|c s IH]; simpl; [reflexivity|].
  intros H. apply andb_true_iff in H as [Hc Hs].
  rewrite (lower_char_letter c Hc), (IH Hs). reflexivity.
Qed.

(** A letter is written as itself in the [repr] of a bytes object. *)
Lemma repr_byte_letter (quote : ascii) (b : byte) :
  quote = squote \/ quote = dquote ->
  is_letter (ascii_of_byte b) = true ->
  repr_byte quote b = char1 (ascii_of_byte b).
Proof.
  intros Hq Hl. unfold repr_byte.
  assert (E1 : Ascii.eqb (ascii_of_byte b) quote = false).
  { apply Ascii.eqb_neq. intros E. rewrite E in Hl.
    destruct Hq; subst quote; discriminate Hl. }
  assert (E2 : Ascii.eqb (ascii_of_byte b) backslash = false).
  { apply Ascii.eqb_neq. intros E. rewrite E in Hl. discriminate Hl. }
  apply is_letter_bounds in Hl.
  assert (E3 : (nat_of_ascii (ascii_of_byte b) =? 9) = false) by (apply Nat.eqb_neq; lia).
  assert (E4 : (nat_of_ascii (ascii_of_byte b) =? 10) = false) by (apply Nat.eqb_neq; lia).
  assert (E5 : (nat_of_ascii (ascii_of_byte b) =? 13) = false) by (apply Nat.eqb_neq; lia).
  assert (E6 : (nat_of_ascii (ascii_of_byte b) <? 32) = false) by (apply Nat.ltb_ge; lia).
  assert (E7 : (127 <=? nat_of_ascii (ascii_of_byte b)) = false) by (apply Nat.leb_gt; lia).
  rewrite E1, E2, E3, E4, E5, E6, E7. reflexivity.
Qed.

Lemma repr_letters (quote : ascii) (word : bytes) :
  quote = squote \/ quote = dquote ->
  letters (text_of word) = true ->
  String.concat "" (map (repr_byte quote) word) = text_of word.
Proof.
  intros Hq. induction word as [|b word IH]; [reflexivity|].
  unfold text_of. simpl map. simpl string_of_list_ascii. simpl letters.
  intros H. apply andb_true_iff in H as [Hb Hw].
  rewrite concat_empty_cons, (repr_byte_letter b Hq Hb), (IH Hw). reflexivity.
Qed.

Lemma says_exists_repr_bytes (pre word post : bytes) :
  lower (text_of word) = "exists"%string ->
  says_exists (repr_bytes (pre ++ word ++ post)) = true.
Proof.
  intros Hword. unfold repr_bytes.
  set (quote := if has_byte squote (pre ++ word ++ post)
                   && negb (has_byte dquote (pre ++ word ++ post))
                then dquote else squote).
  assert (Hq : quote = squote \/ quote = dquote).
  { unfold quote. destruct (_ && _); auto. }
  assert (Hl : letters (text_of word) = true).
  { apply letters_lower. rewrite Hword. reflexivity. }
  apply (says_exists_app_r (String "b" (char1 quote))).
  apply says_exists_app_l.
  rewrite !map_app, !concat_empty_app.
  apply says_exists_app_r, says_exists_app_l.
  rewrite (repr_letters word Hq Hl).
  unfold says_exists. rewrite Hword. reflexivity.
Qed.

(** X15.  A reply to the create request whose first data item
    contains the word "exists" in any mix of upper and lower case letters
    (as in the response code ALREADYEXISTS) leaves the folder ready,
    whatever the status and whatever else the reply holds. *)
Theorem exists_in_any_case_is_accepted (W : World) (target status : string)
    (pre word post : bytes) (rest : list bytes) :
  create W (quoted target) = Returns (status, (pre ++ word ++ post) :: rest) ->
  lower (text_of word) = "exists"%string ->
  ensure W target = Ok tt.
Proof.
  intros Hc Hword. rewrite (ensure_reply W target Hc).
  destruct (String.eqb status "OK"); [reflexivity|].
  pose proof (says_exists_str_list _ rest (says_exists_repr_bytes pre word post Hword)) as H.
  match goal with
  | |- (if ?c then _ else _) = _ => replace c with true by (symmetry; exact H)
  end.
  reflexivity.
Qed.

(** ** Pacing over the whole loop *)

Section Pacing.

Context {L : DateLib}.
Variable W : World.
Variable target : string.

#[local] Arguments Nat.modulo : simpl never.
#[local] Arguments Nat.eqb : simpl never.

Lemma delays_app (l1 l2 : list event) : delays (l1 ++ l2) = delays l1 ++ delays l2.
Proof.
  induction l1 as [|ev l1 IH]; simpl; [reflexivity|].
  destruct ev; simpl; rewrite ?IH; reflexivity.
Qed.

Ltac close_delays :=
  repeat rewrite delays_app; simpl; rewrite ?app_nil_r, <- ?app_assoc; reflexivity.

Lemma after_message_delays (i : nat) (msg : Message) (s : state) :
  delays (out (after_message W target i msg s))
  = delays (out s)
    ++ match attempt W target i msg with
       | Returns _ => [UPLOAD_DELAY_SECONDS]
       | Raises _ => []
       end.
Proof.
  unfold after_message, process_message, attempt, try_except,
    bind, call, lift, emit, print, read, raise, ret, incr_uploaded_count,
    incr_error_count, and_then.
  destruct (as_bytes msg) as [mb|e]; simpl; [|close_delays].
  destruct (get_message_date msg) as [md|e]; simpl; [|close_delays].
  destruct (append W i (quoted target) None md mb) as [[status data]|e]; simpl;
    [|close_delays].
  destruct (String.eqb status "OK"); simpl; [|close_delays].
  destruct (_ || _); simpl; close_delays.
Qed.

(** X16.  Over the loop the script sleeps once, for
    [UPLOAD_DELAY_SECONDS], after each append that returned a reply, OK or
    not, and at no other point: not after an append that raised and not
    after a record that could not be prepared. *)
Theorem one_delay_per_answered_append (msgs : list Message) (i : nat) (s : state) :
  delays (out (after_loop W target i msgs s))
  = delays (out s) ++ repeat UPLOAD_DELAY_SECONDS (answered W target i msgs).
Proof.
  revert i s. induction msgs as [|msg rest IH]; intros i s.
  - rewrite after_loop_nil. simpl. rewrite app_nil_r. reflexivity.
  - rewrite after_loop_cons, IH, after_message_delays. simpl answered.
    rewrite <- app_assoc. f_equal.
    destruct (attempt W target i msg); reflexivity.
Qed.

End Pacing.

(** ** The further properties on sample runs *)

Lemma defaults_fill_host_and_folder_witness :
  details_of SampleInt.int SampleInt.typed
  = ("imap.yandex.com"%string, 993%Z, false, "op@example.org"%string, "secret"%string,
     "Imported_Mbox"%string) /\
  truthy "imap.yandex.com" = true /\ truthy "Imported_Mbox" = true.
Proof.
  split; [reflexivity|].
  destruct (@defaults_fill_host_and_folder SampleInt.int SampleInt.typed
              "imap.yandex.com" 993%Z false "op@example.org" "secret" "Imported_Mbox"
              eq_refl) as (Hh & Ht & _).
  split; [exact Hh | exact Ht].
Defined.

Lemma only_no_disables_ssl_witness :
  details_of SampleInt.int SampleInt.typed
  = ("imap.yandex.com"%string, 993%Z, false, "op@example.org"%string, "secret"%string,
     "Imported_Mbox"%string) /\
  lower (ssl_answer SampleInt.typed) = "no"%string.
Proof.
  split; [reflexivity|].
  apply (proj1 (@only_no_disables_ssl SampleInt.int SampleInt.typed
                  "imap.yandex.com" 993%Z false "op@example.org" "secret" "Imported_Mbox"
                  eq_refl)).
  reflexivity.
Defined.

Lemma port_read_or_default_witness :
  details_of SampleInt.int SampleInt.typed
  = ("imap.yandex.com"%string, 993%Z, false, "op@example.org"%string, "secret"%string,
     "Imported_Mbox"%string) /\
  SampleInt.int "14x" = None /\
  nth_error (fst (get_imap_details SampleInt.int SampleInt.typed)) 4
  = Some (Shown "Invalid port number. Using default: 993").
Proof.
  split; [reflexivity|]. split; [reflexivity|].
  pose proof (@port_read_or_default SampleInt.int SampleInt.typed
                "imap.yandex.com" 993%Z false "op@example.org" "secret" "Imported_Mbox"
                eq_refl) as H.
  cbv zeta in H. destruct H as [_ H]. exact (proj2 (H eq_refl)).
Defined.

Lemma missing_details_are_port_user_password_witness :
  imap_details Cases.asked = details_of SampleInt.int SampleInt.typed /\
  configured Cases.asked = true.
Proof.
  split; [reflexivity|].
  apply (proj2 (@missing_details_are_port_user_password Cases.asked SampleInt.int
                  SampleInt.typed eq_refl)).
  repeat split; discriminate.
Defined.

Lemma get_message_date_returns_witness :
  get Sample.dated "Date" = Returns (Some "Mon, 01 Jan 2024 10:00:00 +0000"%string) /\
  (@get_message_date Sample.dates Sample.dated = Returns None \/
   exists text dt tt ts internal,
     Some "Mon, 01 Jan 2024 10:00:00 +0000"%string = Some text /\ text <> ""%string /\
     @parsedate_to_datetime Sample.dates text = Returns dt /\
     @timetuple Sample.dates dt = Returns tt /\
     @mktime Sample.dates tt = Returns ts /\
     @Time2Internaldate Sample.dates ts = Returns internal /\
     @get_message_date Sample.dates Sample.dated = Returns (Some internal)).
Proof.
  split; [reflexivity|].
  exact (@get_message_date_returns Sample.dates Sample.dated
           (Some "Mon, 01 Jan 2024 10:00:00 +0000"%string) eq_refl).
Defined.

Lemma last_upload_prints_final_count_witness :
  total_messages Cases.entered2 = 0 + length [Sample.unserializable] + 1 /\
  @accepted Sample.dates Sample.mixed Sample.target (0 + length [Sample.unserializable])
            Sample.undated = true /\
  exists pre,
    out (@after_loop Sample.dates Sample.mixed Sample.target 0
           ([Sample.unserializable] ++ [Sample.undated]) Cases.entered2)
    = pre ++ [Print (Uploaded
                (uploaded_count
                   (@after_loop Sample.dates Sample.mixed Sample.target 0
                      ([Sample.unserializable] ++ [Sample.undated]) Cases.entered2))
                (total_messages
                   (@after_loop Sample.dates Sample.mixed Sample.target 0
                      ([Sample.unserializable] ++ [Sample.undated]) Cases.entered2)));
              Sleep UPLOAD_DELAY_SECONDS].
Proof.
  split; [reflexivity|]. split; [reflexivity|].
  exact (@last_upload_prints_final_count Sample.dates Sample.mixed Sample.target
           [Sample.unserializable] Sample.undated 0 Cases.entered2 eq_refl eq_refl).
Defined.

Lemma nothing_is_sent_before_the_loop_witness :
  reaches_loop Sample.refusing = false /\
  appends (out (snd (@run Sample.dates Sample.refusing))) = [].
Proof.
  split; [vm_compute; reflexivity|].
  apply (@nothing_is_sent_before_the_loop Sample.dates Sample.refusing).
  vm_compute. reflexivity.
Defined.

Lemma completed_run_reports_counts_witness :
  reaches_loop Sample.rejecting = true /\
  exit_status (fst (@run Sample.dates Sample.rejecting)) = 0%Z.
Proof.
  split; [vm_compute; reflexivity|].
  destruct (@completed_run_reports_counts Sample.dates Sample.rejecting)
    as (msgs & u & e & pre & _ & _ & _ & _ & H); [vm_compute; reflexivity | exact H].
Defined.

Lemma failed_login_stops_before_create_witness :
  connected Cases.locked_out = true /\
  login_ok Cases.locked_out = false /\
  existsb is_create (out (snd (@run Sample.dates Cases.locked_out))) = false.
Proof.
  split; [reflexivity|]. split; [reflexivity|].
  apply (@failed_login_stops_before_create Sample.dates Cases.locked_out);
    reflexivity.
Defined.

Lemma raised_create_decides_provisioning_witness :
  create Cases.create_raises (quoted Sample.target)
  = Raises (IMAP4_error "CREATE command error: BAD [b'Mailbox already Exists']") /\
  ensure Cases.create_raises Sample.target = Ok tt.
Proof.
  split; [reflexivity|].
  apply (proj1 (@raised_create_decides_provisioning Cases.create_raises Sample.target
                  (IMAP4_error "CREATE command error: BAD [b'Mailbox already Exists']")
                  eq_refl)).
  eexists. split; reflexivity.
Defined.

Lemma no_logout_without_connection_witness :
  connected Sample.unresolvable = false /\
  server (snd (@run Sample.dates Sample.unresolvable)) = false.
Proof.
  split; [reflexivity|].
  apply (@no_logout_without_connection Sample.dates Sample.unresolvable). reflexivity.
Defined.

Lemma appends_carry_no_flags_witness :
  fst (fst (fst (quoted Sample.target, @None string, @None string, Sample.b "two")))
  = quoted (target_of Sample.mixed).
Proof.
  apply (@appends_carry_no_flags Sample.dates Sample.mixed
           (quoted Sample.target, None, None, Sample.b "two")).
  vm_compute. right. left. reflexivity.
Defined.

Lemma exists_in_any_case_is_accepted_witness :
  create Sample.existing (quoted Sample.target)
  = Returns ("NO"%string,
             [Sample.b "[ALREADY" ++ Sample.b "EXISTS" ++ Sample.b "] Mailbox exists"]) /\
  lower (text_of (Sample.b "EXISTS")) = "exists"%string /\
  ensure Sample.existing Sample.target = Ok tt.
Proof.
  split; [reflexivity|]. split; [reflexivity|].
  exact (@exists_in_any_case_is_accepted Sample.existing Sample.target "NO"
           (Sample.b "[ALREADY") (Sample.b "EXISTS") (Sample.b "] Mailbox exists") []
           eq_refl eq_refl).
Defined.

(** The error lines of a run with one rejected and one unserializable
    record name the positions 2 and 3. *)
Example error_lines_name_positions :
  error_positions
    (out (snd (@run Sample.dates
                 (Sample.with_append
                    (Sample.world [Sample.dated; Sample.undated; Sample.unserializable])
                    (Sample.failing_at 1 (Sample.no "quota exceeded"))))))
  = [2; 3].
Proof. vm_compute. reflexivity. Qed.

Lemma readable_archive_is_appended_whole_witness :
  Forall (fun msg => readable msg = true) [Sample.dated; Sample.misdated] /\
  @one_append_per_record Sample.dates Sample.target
    (skipn (length (appends (out Cases.entered2)))
           (appends (out (@after_loop Sample.dates Sample.mixed Sample.target 0
                            [Sample.dated; Sample.misdated] Cases.entered2))))
    [Sample.dated; Sample.misdated].
Proof.
  split; [repeat constructor|].
  pose proof (@readable_archive_is_appended_whole Sample.dates Sample.mixed Sample.target 0
                [Sample.dated; Sample.misdated] Cases.entered2) as H.
  cbv zeta in H. apply H. repeat constructor.
Defined.
